(** * Intentive: the Express server's provider selection and request translation

    A shallow embedding of [server/app.js]: the two provider adapters
    ([callGemini], [callOpenAI]) and the three API routes
    ([GET /api/health], [POST /api/chat], [POST /api/intent]).

    JavaScript values are the JSON values the server handles (request
    bodies parsed by [express.json], upstream replies parsed by
    [res.json()], the object literals the routes build).  Exceptions are
    an explicit [result]; the outbound [_fetch] call and [console.error]
    are recorded in a [world] that the route handlers thread through. *)

From Stdlib Require Import String List NArith Bool DecimalString.
Import ListNotations.
Open Scope string_scope.

(** ** JavaScript values *)

(** A number is carried by its canonical decimal rendering, the text
    [Number::toString] gives it and the only thing besides truthiness the
    server ever observes of a number: ["300"], ["0.2"], ["NaN"],
    ["Infinity"].  Both zeros render as ["0"]. *)
Definition number := string.

#[local] Set Warnings "-register-all".

Inductive jsval : Type :=
| JUndefined
| JNull
| JBool (b : bool)
| JNum (n : number)
| JStr (s : string)
| JArr (items : list jsval)
| JObj (props : list (string * jsval)).

(** Induction over values that also reaches the items of an array and the
    property values of an object. *)
Section jsval_induction.
Variable P : jsval -> Prop.
Hypothesis HUndefined : P JUndefined.
Hypothesis HNull : P JNull.
Hypothesis HBool : forall b, P (JBool b).
Hypothesis HNum : forall n, P (JNum n).
Hypothesis HStr : forall s, P (JStr s).
Hypothesis HArr : forall items, Forall P items -> P (JArr items).
Hypothesis HObj : forall props, Forall (fun kv => P (snd kv)) props -> P (JObj props).

Fixpoint jsval_nested_ind (v : jsval) : P v :=
  match v with
  | JUndefined => HUndefined
  | JNull => HNull
  | JBool b => HBool b
  | JNum n => HNum n
  | JStr s => HStr s
  | JArr items =>
      HArr items
        ((fix all (l : list jsval) : Forall P l :=
            match l with
            | [] => Forall_nil P
            | x :: l' => Forall_cons x (jsval_nested_ind x) (all l')
            end) items)
  | JObj props =>
      HObj props
        ((fix all (l : list (string * jsval)) : Forall (fun kv => P (snd kv)) l :=
            match l with
            | [] => Forall_nil _
            | kv :: l' => Forall_cons kv (jsval_nested_ind (snd kv)) (all l')
            end) props)
  end.
End jsval_induction.

(** ** Exceptions *)

Inductive exn : Type :=
| TypeError                  (* a read of a property of null or undefined, a call
                                of something that is no function, an object with
                                no primitive value *)
| Error (message : string)   (* [new Error(message)] *)
| Rejected (reason : string) (* a promise of the runtime ([_fetch], [res.json()])
                                that rejects *).

Inductive result (A : Type) : Type :=
| Ok (a : A)
| Throw (e : exn).
Arguments Ok {A} a.
Arguments Throw {A} e.

Definition rbind {A B} (r : result A) (k : A -> result B) : result B :=
  match r with
  | Ok a => k a
  | Throw e => Throw e
  end.

Declare Scope result_scope.
Delimit Scope result_scope with result.
Notation "x <- r ;; k" := (rbind r (fun x => k))
  (at level 61, r at next level, right associativity) : result_scope.

(** ** Built-in operations the server uses *)

(** ToBoolean. *)
Definition truthy (v : jsval) : bool :=
  match v with
  | JUndefined | JNull => false
  | JBool b => b
  | JNum n => negb (String.eqb n "0" || String.eqb n "NaN")
  | JStr s => negb (String.eqb s "")
  | JArr _ | JObj _ => true
  end.

(** [a || b] on values. *)
Definition js_or (a b : jsval) : jsval := if truthy a then a else b.

Definition nullish (v : jsval) : bool :=
  match v with
  | JUndefined | JNull => true
  | _ => false
  end.

Definition Array_isArray (v : jsval) : bool :=
  match v with
  | JArr _ => true
  | _ => false
  end.

(** An object holds a key once; a lookup reads the first entry. *)
Fixpoint own_property (k : string) (props : list (string * jsval)) : option jsval :=
  match props with
  | [] => None
  | (k', v) :: rest => if String.eqb k k' then Some v else own_property k rest
  end.

Definition has_own_property (k : string) (props : list (string * jsval)) : bool :=
  match own_property k props with
  | Some _ => true
  | None => false
  end.

(** [v.k] for the property names the server reads ([messages], [intent],
    [role], [content], [candidates], [parts], [text], [choices],
    [message]): none is a member of a built-in prototype, so on a string,
    number, boolean or array, and on an object without it, the read gives
    [undefined]; on [null] and [undefined] it throws. *)
Definition get (v : jsval) (k : string) : result jsval :=
  match v with
  | JUndefined | JNull => Throw TypeError
  | JObj props =>
      Ok (match own_property k props with
          | Some x => x
          | None => JUndefined
          end)
  | _ => Ok JUndefined
  end.

(** [v[0]]: the first item of an array, the first character of a string
    (a string being read as the sequence of its characters), the property
    ["0"] of an object. *)
Definition get_index0 (v : jsval) : result jsval :=
  match v with
  | JUndefined | JNull => Throw TypeError
  | JArr items => Ok (hd JUndefined items)
  | JStr s =>
      Ok (match s with
          | EmptyString => JUndefined
          | String c _ => JStr (String c EmptyString)
          end)
  | JObj props =>
      Ok (match own_property "0" props with
          | Some x => x
          | None => JUndefined
          end)
  | _ => Ok JUndefined
  end.

(** [Array.prototype.join] over a conversion [conv] of the items:
    [undefined] and [null] give the empty string, the separator goes
    between items, the first conversion that throws aborts the join. *)
Definition join_with (conv : jsval -> result string) (sep : string)
  : list jsval -> result string :=
  fix join (items : list jsval) : result string :=
    match items with
    | [] => Ok ""
    | x :: rest =>
        (s <- (if nullish x then Ok "" else conv x) ;;
         match rest with
         | [] => Ok s
         | _ :: _ => (t <- join rest ;; Ok (s ++ sep ++ t))
         end)%result
    end.

(** ToString, which [String(v)] and [join] apply.  An array converts by
    [Array.prototype.toString], a join with [","].  An object parsed from
    JSON has no callable property of its own: without an own [toString]
    it converts by [Object.prototype.toString]; with one (never callable)
    neither [toString] nor [valueOf] yields a primitive and the
    conversion throws. *)
Fixpoint ToString (v : jsval) : result string :=
  match v with
  | JUndefined => Ok "undefined"
  | JNull => Ok "null"
  | JBool true => Ok "true"
  | JBool false => Ok "false"
  | JNum n => Ok n
  | JStr s => Ok s
  | JArr items => join_with ToString "," items
  | JObj props =>
      if has_own_property "toString" props then Throw TypeError
      else Ok "[object Object]"
  end.

(** [v.join(sep)] on an array. *)
Definition Array_join (sep : string) (v : jsval) : result string :=
  match v with
  | JArr items => join_with ToString sep items
  | _ => Throw TypeError
  end.

(** [v.map(f)]: on an array the items are mapped in order and the first
    call that throws aborts; any other value has no callable [map]. *)
Fixpoint map_result {A B} (f : A -> result B) (l : list A) : result (list B) :=
  match l with
  | [] => Ok []
  | x :: rest => (y <- f x ;; ys <- map_result f rest ;; Ok (y :: ys))%result
  end.

Definition Array_map (f : jsval -> result jsval) (v : jsval) : result jsval :=
  match v with
  | JArr items => (ys <- map_result f items ;; Ok (JArr ys))%result
  | _ => Throw TypeError
  end.

(** [a?.k]: [undefined] when [a] is [null] or [undefined], which also
    ends the rest [k] of the chain. *)
Definition opt_chain (a : jsval) (k : jsval -> result jsval) : result jsval :=
  if nullish a then Ok JUndefined else k a.

(** The rendering of a status code in a template literal. *)
Definition N_to_string (n : N) : string := NilZero.string_of_uint (N.to_uint n).

(** [v === s] against a string literal. *)
Definition strict_eq_string (v : jsval) (s : string) : bool :=
  match v with
  | JStr t => String.eqb t s
  | _ => false
  end.

(** ** The world outside: the upstream call and the console *)

(** What [_fetch(url, init)] is given; [body] is the value handed to
    [JSON.stringify]. *)
Record http_request : Type := {
  url : string;
  method : string;
  headers : list (string * string);
  body : jsval
}.

(** What the server reads of an upstream response: [res.ok],
    [res.status] and the outcome of [res.json()]. *)
Record upstream_response : Type := {
  ok : bool;
  status : N;
  json : result jsval
}.

(** What a route sends back: the status code and the value given to
    [res.json]. *)
Record http_response : Type := {
  res_status : N;
  res_body : jsval
}.

(** The requests sent upstream and the errors written to the console,
    oldest first. *)
Record world : Type := {
  sent : list http_request;
  console : list exn
}.

Definition quiet : world := {| sent := []; console := [] |}.

Definition IO (A : Type) : Type := world -> result A * world.

Definition ret {A} (a : A) : IO A := fun w => (Ok a, w).

Definition throw {A} (e : exn) : IO A := fun w => (Throw e, w).

Definition lift {A} (r : result A) : IO A := fun w => (r, w).

Definition bind {A B} (c : IO A) (k : A -> IO B) : IO B :=
  fun w =>
    match c w with
    | (Ok a, w') => k a w'
    | (Throw e, w') => (Throw e, w')
    end.

(** [try { c } catch (err) { handler err }]. *)
Definition try_catch {A} (c : IO A) (handler : exn -> IO A) : IO A :=
  fun w =>
    match c w with
    | (Ok a, w') => (Ok a, w')
    | (Throw e, w') => handler e w'
    end.

Definition console_error (e : exn) : IO unit :=
  fun w => (Ok tt, {| sent := sent w; console := console w ++ [e] |}).

Declare Scope io_scope.
Delimit Scope io_scope with io.
Notation "x <- c ;; k" := (bind c (fun x => k))
  (at level 61, c at next level, right associativity) : io_scope.
Notation "c ;; k" := (bind c (fun _ => k))
  (at level 61, right associativity) : io_scope.

(** [res.json(v)] and [res.status(n).json(v)] of Express. *)
Definition res_json (v : jsval) : http_response :=
  {| res_status := 200; res_body := v |}.

Definition res_status_json (n : N) (v : jsval) : http_response :=
  {| res_status := n; res_body := v |}.

(** The three provider tags. *)
Inductive provider : Type := google | openai | none.

Definition provider_tag (p : provider) : string :=
  match p with
  | google => "google"
  | openai => "openai"
  | none => "none"
  end.

(** [process.env.NAME || ''], how the two keys are read at start-up. *)
Definition env_or_empty (v : option string) : string :=
  match v with
  | Some s => if truthy (JStr s) then s else ""
  | None => ""
  end.

(** ** The application *)

Section App.

(** The module-level constants, read once from the environment. *)
Variable GOOGLE_API_KEY : string.
Variable OPENAI_API_KEY : string.

(** [process.versions.node]. *)
Variable node_version : string.

(** The answer of the network to a request: a response, or a rejection. *)
Variable _fetch : http_request -> result upstream_response.

Definition fetch (req : http_request) : IO upstream_response :=
  fun w => (_fetch req, {| sent := (sent w ++ [req])%list; console := console w |}).

(** *** callGemini *)

(** The arrow function given to [messages.map]. *)
Definition gemini_content (m : jsval) : result jsval :=
  (role <- get m "role" ;;
   content <- get m "content" ;;
   text <- ToString (js_or content (JStr "")) ;;
   Ok (JObj [("role", JStr (if strict_eq_string role "assistant" then "model" else "user"));
             ("parts", JArr [JObj [("text", JStr text)]])]))%result.

Definition gemini_request (contents : jsval) : http_request :=
  let model := "models/gemini-1.5-flash" in
  {| url := "https://generativelanguage.googleapis.com/v1beta/" ++ model
            ++ ":generateContent?key=" ++ GOOGLE_API_KEY;
     method := "POST";
     headers := [("Content-Type", "application/json")];
     body := JObj [("contents", contents)] |}.

(** [data?.candidates?.[0]?.content?.parts?.map((p) => p.text).join('')
     || '(no content)']. *)
Definition gemini_text (data : jsval) : result jsval :=
  (joined <-
     opt_chain data (fun data =>
       candidates <- get data "candidates" ;;
       opt_chain candidates (fun candidates =>
         first <- get_index0 candidates ;;
         opt_chain first (fun first =>
           content <- get first "content" ;;
           opt_chain content (fun content =>
             parts <- get content "parts" ;;
             opt_chain parts (fun parts =>
               texts <- Array_map (fun p => get p "text") parts ;;
               s <- Array_join "" texts ;;
               Ok (JStr s)))))) ;;
   Ok (js_or joined (JStr "(no content)")))%result.

Definition callGemini (messages : jsval) : IO jsval :=
  (contents <- lift (Array_map gemini_content messages) ;;
   res <- fetch (gemini_request contents) ;;
   if negb (ok res) then throw (Error ("Gemini HTTP " ++ N_to_string (status res)))
   else
     data <- lift (json res) ;;
     text <- lift (gemini_text data) ;;
     ret (JObj [("role", JStr "assistant"); ("content", text)]))%io.

(** *** callOpenAI *)

Definition openai_request (messages : jsval) : http_request :=
  {| url := "https://api.openai.com/v1/chat/completions";
     method := "POST";
     headers := [("Content-Type", "application/json");
                 ("Authorization", "Bearer " ++ OPENAI_API_KEY)];
     body := JObj [("model", JStr "gpt-3.5-turbo");
                   ("messages", messages);
                   ("temperature", JNum "0.2");
                   ("max_tokens", JNum "300")] |}.

Definition callOpenAI (messages : jsval) : IO jsval :=
  (res <- fetch (openai_request messages) ;;
   if negb (ok res) then throw (Error ("OpenAI HTTP " ++ N_to_string (status res)))
   else
     data <- lift (json res) ;;
     lift (choices <- get data "choices" ;;
           first <- get_index0 choices ;;
           get first "message")%result)%io.

(** *** GET /api/health *)

Definition health_provider : provider :=
  if truthy (JStr GOOGLE_API_KEY) then google
  else if truthy (JStr OPENAI_API_KEY) then openai
  else none.

Definition api_health : IO http_response :=
  ret (res_json (JObj [("ok", JBool true);
                       ("provider", JStr (provider_tag health_provider));
                       ("node", JStr node_version)])).

(** *** POST /api/chat *)

(** The test of the first [if] of the chain; [String] of a string is
    the string. *)
Definition gemini_configured : bool :=
  truthy (JStr GOOGLE_API_KEY) || String.prefix "AIza" GOOGLE_API_KEY.

(** The test of the second [if]. *)
Definition openai_configured : bool := truthy (JStr OPENAI_API_KEY).

Definition fallback_message : jsval :=
  JObj [("role", JStr "assistant");
        ("content", JStr "No AI provider configured. Set GOOGLE_API_KEY (Gemini) or OPENAI_API_KEY on the server.")].

(** The [catch] block of the route. *)
Definition chat_catch (err : exn) : IO http_response :=
  (console_error err ;;
   ret (res_status_json 500 (JObj [("error", JStr "Failed to process chat request.")])))%io.

Definition api_chat (req_body : jsval) : IO http_response :=
  try_catch
    (messages <- lift (get (js_or req_body (JObj [])) "messages") ;;
     if negb (Array_isArray messages) then
       ret (res_status_json 400 (JObj [("error", JStr "Body must include messages: []")]))
     else if gemini_configured then
       reply <- callGemini messages ;;
       ret (res_json (JObj [("message", reply); ("provider", JStr "google")]))
     else if openai_configured then
       reply <- callOpenAI messages ;;
       ret (res_json (JObj [("message", reply); ("provider", JStr "openai")]))
     else
       ret (res_json (JObj [("message", fallback_message); ("provider", JStr "none")])))%io
    chat_catch.

(** The provider the chain of [api_chat] settles on. *)
Definition chat_provider : provider :=
  if gemini_configured then google
  else if openai_configured then openai
  else none.

(** *** POST /api/intent *)

Definition api_intent (req_body : jsval) : IO http_response :=
  (intent <- lift (get (js_or req_body (JObj [])) "intent") ;;
   if negb (truthy intent) then
     ret (res_status_json 400 (JObj [("error", JStr "No intent provided.")]))
   else
     ret (res_json (JObj [("status", JStr "received"); ("intent", intent)])))%io.

End App.

(** ** ChatMessage, the data model of the specification *)

Inductive chat_role : Type := system | user | assistant.

Definition role_name (r : chat_role) : string :=
  match r with
  | system => "system"
  | user => "user"
  | assistant => "assistant"
  end.

Record ChatMessage : Type := {
  role : chat_role;
  content : string
}.

(** A ChatMessage as the value [express.json] parses it to. *)
Definition js_of_message (m : ChatMessage) : jsval :=
  JObj [("role", JStr (role_name (role m))); ("content", JStr (content m))].

(** The Google-shaped message in the words of the specification:
    [{ role: "model" if original role=="assistant" else "user",
       parts: [{ text: content }] }]. *)
Definition spec_gemini_message (m : ChatMessage) : jsval :=
  JObj [("role", JStr (match role m with
                       | assistant => "model"
                       | system | user => "user"
                       end));
        ("parts", JArr [JObj [("text", JStr (content m))]])].

(** ** Upstream replies, for stating what the adapters read *)

(** A stubbed upstream: every request gets the response [r]. *)
Definition stub (r : upstream_response) : http_request -> result upstream_response :=
  fun _ => Ok r.

(** A successful response whose JSON body is [data]. *)
Definition success (data : jsval) : upstream_response :=
  {| ok := true; status := 200; json := Ok data |}.

(** A response with the non-success status [n] and no readable body. *)
Definition failure (n : N) : upstream_response :=
  {| ok := false; status := n; json := Throw (Rejected "Unexpected end of JSON input") |}.

(** The first candidate of [data] has the parts [parts]. *)
Inductive first_candidate_parts (data : jsval) (parts : list jsval) : Prop :=
| first_candidate_parts_intro (first content : jsval) (rest : list jsval) :
    get data "candidates" = Ok (JArr (first :: rest)) ->
    get first "content" = Ok content ->
    get content "parts" = Ok (JArr parts) ->
    first_candidate_parts data parts.

(** The part [p] is a text part with text [t]. *)
Definition text_part (p : jsval) (t : string) : Prop := get p "text" = Ok (JStr t).

(** [data] has no candidate or no parts: the response, its candidates,
    the first of them, its content or its parts is [null] or
    [undefined], or the parts are an empty array. *)
Inductive no_candidate_parts (data : jsval) : Prop :=
| no_data :
    nullish data = true ->
    no_candidate_parts data
| no_candidates (candidates : jsval) :
    get data "candidates" = Ok candidates ->
    nullish candidates = true ->
    no_candidate_parts data
| no_first_candidate (candidates first : jsval) :
    get data "candidates" = Ok candidates ->
    get_index0 candidates = Ok first ->
    nullish first = true ->
    no_candidate_parts data
| no_content (candidates first content : jsval) :
    get data "candidates" = Ok candidates ->
    get_index0 candidates = Ok first ->
    get first "content" = Ok content ->
    nullish content = true ->
    no_candidate_parts data
| no_parts (candidates first content parts : jsval) :
    get data "candidates" = Ok candidates ->
    get_index0 candidates = Ok first ->
    get first "content" = Ok content ->
    get content "parts" = Ok parts ->
    nullish parts = true \/ parts = JArr [] ->
    no_candidate_parts data.

(** The parts of the first candidate, read without the short cuts. *)
Definition candidate_parts (data : jsval) : result jsval :=
  (candidates <- get data "candidates" ;;
   first <- get_index0 candidates ;;
   content <- get first "content" ;;
   get content "parts")%result.

(** A Google reply whose first candidate has the text parts [texts]. *)
Definition gemini_reply (texts : list string) : jsval :=
  JObj [("candidates",
         JArr [JObj [("content",
                      JObj [("role", JStr "model");
                            ("parts", JArr (map (fun t => JObj [("text", JStr t)]) texts))]);
                     ("finishReason", JStr "STOP")]])].

(** The ChatReply of the specification with content [text]. *)
Definition assistant_message (text : string) : jsval :=
  JObj [("role", JStr "assistant"); ("content", JStr text)].

(** The request the adapter of the selected provider sends for
    [messages], if it gets that far. *)
Definition selected_request (G O : string) (messages : jsval) : option http_request :=
  match chat_provider G O with
  | google =>
      match Array_map gemini_content messages with
      | Ok contents => Some (gemini_request G contents)
      | Throw _ => None
      end
  | openai => Some (openai_request O messages)
  | none => None
  end.

(** [v] has a primitive value, so that [String(v)] returns: every
    primitive, an object without an own [toString], an array of such. *)
Fixpoint convertible (v : jsval) : bool :=
  match v with
  | JArr items => forallb convertible items
  | JObj props => negb (has_own_property "toString" props)
  | _ => true
  end.

(** The text a part contributes to the reply: [String] of its [text]
    property; nothing when the part has no [text] (a part of another
    kind, a function call say) or cannot be read. *)
Definition part_text (p : jsval) : option string :=
  match get p "text" with
  | Ok v =>
      if nullish v then None
      else match ToString v with
           | Ok s => Some s
           | Throw _ => None
           end
  | Throw _ => None
  end.

(** The texts of the text parts among [parts], in order. *)
Definition part_texts (parts : list jsval) : list string :=
  flat_map (fun p => match part_text p with
                     | Some s => [s]
                     | None => []
                     end) parts.

(** A part the adapter can read: not [null], with no [text] or with a
    [text] that has a string form (a string above all). *)
Definition readable_part (p : jsval) : Prop :=
  exists v, get p "text" = Ok v
            /\ (nullish v = true \/ exists s, ToString v = Ok s).

(** A Google reply whose first candidate has a text part, a function
    call and another text part. *)
Definition gemini_mixed_reply (t1 t2 : string) : jsval :=
  JObj [("candidates",
         JArr [JObj [("content",
                      JObj [("role", JStr "model");
                            ("parts",
                             JArr [JObj [("text", JStr t1)];
                                   JObj [("functionCall",
                                          JObj [("name", JStr "quote");
                                                ("args", JObj [])])];
                                   JObj [("text", JStr t2)]])])]])].

(** ** The start-up of the server *)

(** [process.env.NAME]: the string the variable holds, or [undefined]. *)
Definition env_value (v : option string) : jsval :=
  match v with
  | Some s => JStr s
  | None => JUndefined
  end.

(** [process.env.PORT || 3001]. *)
Definition PORT (env_PORT : option string) : jsval :=
  js_or (env_value env_PORT) (JNum "3001").

(** What [app.listen(port, callback)] comes to: the socket is bound and
    the callback runs, or the call fails (it throws, as for a port out
    of range, or the socket cannot be bound), the callback never runs
    and the error is left uncaught. *)
Inductive listen_outcome : Type :=
| Bound
| Fails (e : exn).

(** What the start-up did: the port given to [app.listen] if it was
    called, the lines written by [console.log], the error left
    uncaught. *)
Record startup : Type := {
  listen_port : option jsval;
  log_lines : list string;
  uncaught : option exn
}.

(** [server/index.js]: unless [process.env.VERCEL] is set, the app
    listens on [PORT]; the callback, which runs once the socket is
    bound, logs the address. *)
Definition server_index (app_listen : jsval -> listen_outcome)
           (env_VERCEL env_PORT : option string) : startup :=
  if negb (truthy (env_value env_VERCEL)) then
    match app_listen (PORT env_PORT) with
    | Bound =>
        match ToString (PORT env_PORT) with
        | Ok port =>
            {| listen_port := Some (PORT env_PORT);
               log_lines := ["Local server listening at http://localhost:" ++ port];
               uncaught := None |}
        | Throw e =>
            {| listen_port := Some (PORT env_PORT); log_lines := []; uncaught := Some e |}
        end
    | Fails e =>
        {| listen_port := Some (PORT env_PORT); log_lines := []; uncaught := Some e |}
    end
  else {| listen_port := None; log_lines := []; uncaught := None |}.

(** ** The client's call of the chat route *)

(** [err.message]: the message of an [Error], the reason of a rejection
    of the runtime, and for a TypeError the wording of the engine,
    [type_error_text]. *)
Definition err_message (type_error_text : string) (e : exn) : string :=
  match e with
  | TypeError => type_error_text
  | Error message => message
  | Rejected reason => reason
  end.

Definition chat_api_request (messages : jsval) : http_request :=
  {| url := "/api/chat";
     method := "POST";
     headers := [("Content-Type", "application/json")];
     body := JObj [("messages", messages)] |}.

(** [callChatAPI] of [client/app.jsx]; [api] is what the page's [fetch]
    answers. *)
Definition callChatAPI (type_error_text : string)
           (api : http_request -> result upstream_response) (messages : jsval) : IO jsval :=
  try_catch
    (res <- fetch api (chat_api_request messages) ;;
     if negb (ok res) then throw (Error ("HTTP " ++ N_to_string (status res)))
     else
       data <- lift (json res) ;;
       lift (get data "message"))%io
    (fun err =>
       ret (JObj [("role", JStr "assistant");
                  ("content", JStr ("Error: " ++ err_message type_error_text err))])).

(** The answer of the [catch] block of the chat route. *)
Definition chat_failure : http_response :=
  {| res_status := 500;
     res_body := JObj [("error", JStr "Failed to process chat request.")] |}.

(** An OpenAI reply whose first choice carries the message [msg]. *)
Definition openai_reply (msg : jsval) : jsval :=
  JObj [("id", JStr "chatcmpl-1");
        ("choices", JArr [JObj [("index", JNum "0");
                                ("message", msg);
                                ("finish_reason", JStr "stop")]])].

(** [data] has no first choice: the response, its choices or the first
    of them is [null] or [undefined] (an empty array of choices has no
    first). *)
Inductive no_first_choice (data : jsval) : Prop :=
| no_choice_data :
    nullish data = true ->
    no_first_choice data
| no_choices (choices : jsval) :
    get data "choices" = Ok choices ->
    nullish choices = true ->
    no_first_choice data
| no_choice (choices first : jsval) :
    get data "choices" = Ok choices ->
    get_index0 choices = Ok first ->
    nullish first = true ->
    no_first_choice data.

(** [x] is the Google-shaped element for the message [m]: role "model"
    when the role of [m] is the string "assistant" and "user" otherwise,
    and one part whose text is [String(m.content || '')]. *)
Definition translated (m x : jsval) : Prop :=
  exists (r text : string) (c : jsval),
    x = JObj [("role", JStr r); ("parts", JArr [JObj [("text", JStr text)]])]
    /\ ((get m "role" = Ok (JStr "assistant") /\ r = "model")
        \/ (get m "role" <> Ok (JStr "assistant") /\ r = "user"))
    /\ get m "content" = Ok c
    /\ ToString (js_or c (JStr "")) = Ok text.

(** A message the Google translation cannot take: [null] or
    [undefined], or one whose content has no primitive value. *)
Definition untranslatable (m : jsval) : Prop :=
  nullish m = true
  \/ exists c, get m "content" = Ok c /\ convertible c = false.

(** ** Basic facts *)

Lemma truthy_JStr (s : string) : truthy (JStr s) = true <-> s <> "".
Proof.
  simpl. destruct s as [|c s]; simpl.
  - split; [discriminate | intros H; now elim H].
  - split; [discriminate | reflexivity].
Qed.

Lemma truthy_JStr_empty : truthy (JStr "") = false.
Proof. reflexivity. Qed.

Lemma gemini_configured_truthy (G : string) :
  gemini_configured G = truthy (JStr G).
Proof.
  unfold gemini_configured.
  destruct G as [|c G]; reflexivity.
Qed.

Lemma js_or_body_not_nullish (req_body : jsval) :
  nullish (js_or req_body (JObj [])) = false.
Proof.
  unfold js_or. destruct req_body as [| |[]|n|s| |]; simpl; try reflexivity.
  - destruct (_ || _); reflexivity.
  - destruct (String.eqb s ""); reflexivity.
Qed.

Lemma get_not_nullish (v : jsval) (k : string) :
  nullish v = false -> exists x, get v k = Ok x.
Proof.
  destruct v; simpl; try discriminate; eauto.
Qed.

(** For a body whose [messages] is an array, [api_chat] is the [try] of
    the branch of [chat_provider]. *)
Lemma api_chat_selects (G O : string) (f : http_request -> result upstream_response)
      (req_body : jsval) (l : list jsval) :
  get (js_or req_body (JObj [])) "messages" = Ok (JArr l) ->
  api_chat G O f req_body =
  try_catch
    (match chat_provider G O with
     | google =>
         (reply <- callGemini G f (JArr l) ;;
          ret (res_json (JObj [("message", reply); ("provider", JStr "google")])))%io
     | openai =>
         (reply <- callOpenAI O f (JArr l) ;;
          ret (res_json (JObj [("message", reply); ("provider", JStr "openai")])))%io
     | none =>
         ret (res_json (JObj [("message", fallback_message); ("provider", JStr "none")]))
     end)
    chat_catch.
Proof.
  intros Hm. unfold api_chat, chat_provider, chat_catch, try_catch, bind, lift.
  rewrite Hm. simpl.
  destruct (gemini_configured G); [reflexivity|].
  destruct (openai_configured O); reflexivity.
Qed.


(** ** The routing decision *)

(** C1. For every pair of credential strings the chain of [api_chat]
    settles on exactly one of google, openai and none: google exactly
    when the Google key is non-empty (whatever the OpenAI key), openai
    exactly when the Google key is empty and the OpenAI key is not, none
    exactly when both are empty; and on a body whose [messages] is an
    array the route runs the branch of that provider and no other. *)
Theorem chat_routing_total (G O : string) :
  (exists! p, chat_provider G O = p)
  /\ (chat_provider G O = google <-> G <> "")
  /\ (chat_provider G O = openai <-> G = "" /\ O <> "")
  /\ (chat_provider G O = none <-> G = "" /\ O = "")
  /\ (forall f req_body l,
        get (js_or req_body (JObj [])) "messages" = Ok (JArr l) ->
        api_chat G O f req_body =
        try_catch
          (match chat_provider G O with
           | google =>
               (reply <- callGemini G f (JArr l) ;;
                ret (res_json (JObj [("message", reply); ("provider", JStr "google")])))%io
           | openai =>
               (reply <- callOpenAI O f (JArr l) ;;
                ret (res_json (JObj [("message", reply); ("provider", JStr "openai")])))%io
           | none =>
               ret (res_json (JObj [("message", fallback_message); ("provider", JStr "none")]))
           end)
          chat_catch).
Proof.
  split; [| split; [| split; [| split]]].
  - exists (chat_provider G O). split; [reflexivity | intros p' H; exact H].
  - unfold chat_provider. rewrite gemini_configured_truthy.
    destruct G as [|c G]; simpl.
    + destruct (openai_configured O); split; try discriminate; intros H; now elim H.
    + split; [discriminate | reflexivity].
  - unfold chat_provider, openai_configured. rewrite gemini_configured_truthy.
    destruct G as [|c G]; simpl.
    + destruct O as [|d O]; simpl.
      * split; [discriminate | intros [_ H]; now elim H].
      * split; [intros _; split; [reflexivity | discriminate] | reflexivity].
    + split; [discriminate | intros [H _]; discriminate].
  - unfold chat_provider, openai_configured. rewrite gemini_configured_truthy.
    destruct G as [|c G]; simpl.
    + destruct O as [|d O]; simpl.
      * split; [intros _; split; reflexivity | reflexivity].
      * split; [discriminate | intros [_ H]; discriminate].
    + split; [discriminate | intros [H _]; discriminate].
  - intros f req_body l Hm. now apply api_chat_selects.
Qed.

Lemma chat_routing_total_witness :
  chat_provider "AIzaSyExampleKey" "sk-example" = google.
Proof.
  apply (proj2 (proj1 (proj2 (chat_routing_total "AIzaSyExampleKey" "sk-example")))).
  discriminate.
Defined.

(** ** The two translations *)

Lemma map_result_map {A B C} (f : B -> result C) (g : A -> B) (h : A -> C) (l : list A) :
  (forall x, f (g x) = Ok (h x)) ->
  map_result f (map g l) = Ok (map h l).
Proof.
  intros H. induction l as [|x l IH]; simpl.
  - reflexivity.
  - rewrite H. simpl. rewrite IH. reflexivity.
Qed.

Lemma ToString_string_or_empty (s : string) :
  ToString (js_or (JStr s) (JStr "")) = Ok s.
Proof. destruct s; reflexivity. Qed.

Lemma gemini_content_message (m : ChatMessage) :
  gemini_content (js_of_message m) = Ok (spec_gemini_message m).
Proof.
  destruct m as [r c]. unfold gemini_content, js_of_message, spec_gemini_message.
  simpl get. simpl rbind.
  rewrite ToString_string_or_empty. simpl.
  destruct r; reflexivity.
Qed.

(** Once the contents are built, [callGemini] sends exactly one request,
    the one carrying them, whatever comes back. *)
Lemma callGemini_sent (G : string) (f : http_request -> result upstream_response)
      (messages contents : jsval) (w : world) :
  Array_map gemini_content messages = Ok contents ->
  sent (snd (callGemini G f messages w)) = (sent w ++ [gemini_request G contents])%list.
Proof.
  intros Hc. unfold callGemini, bind, lift, fetch, throw, ret. rewrite Hc.
  destruct (f (gemini_request G contents)) as [r|e]; [|reflexivity].
  destruct (ok r); simpl; [|reflexivity].
  destruct (json r) as [data|e]; [|reflexivity].
  destruct (gemini_text data); reflexivity.
Qed.

(** When building the contents throws, nothing is sent. *)
Lemma callGemini_contents_throw (G : string) (f : http_request -> result upstream_response)
      (messages : jsval) (e : exn) (w : world) :
  Array_map gemini_content messages = Throw e ->
  callGemini G f messages w = (Throw e, w).
Proof.
  intros Hc. unfold callGemini, bind, lift. now rewrite Hc.
Qed.

Lemma callOpenAI_sent (O : string) (f : http_request -> result upstream_response)
      (messages : jsval) (w : world) :
  sent (snd (callOpenAI O f messages w)) = (sent w ++ [openai_request O messages])%list.
Proof.
  unfold callOpenAI, bind, lift, fetch, throw.
  destruct (f (openai_request O messages)) as [r|e]; [|reflexivity].
  destruct (ok r); simpl; [|reflexivity].
  destruct (json r) as [data|e]; [|reflexivity].
  destruct (_ <- get data "choices" ;; _)%result; reflexivity.
Qed.

(** C2. For every sequence of ChatMessages (the empty one included),
    the [contents] that [callGemini] builds has the length and the order
    of the messages; the element at each position has role "model" when
    the message's role is assistant and "user" when it is user or system,
    and a single part whose text is the message's content; and it is
    what the one request sent upstream carries. *)
Theorem gemini_translation (G : string) (f : http_request -> result upstream_response)
        (msgs : list ChatMessage) (w : world) :
  let contents := map spec_gemini_message msgs in
  Array_map gemini_content (JArr (map js_of_message msgs)) = Ok (JArr contents)
  /\ length contents = length msgs
  /\ (forall i m, nth_error msgs i = Some m ->
        nth_error contents i =
        Some (JObj [("role", JStr (match role m with
                                   | assistant => "model"
                                   | system | user => "user"
                                   end));
                    ("parts", JArr [JObj [("text", JStr (content m))]])]))
  /\ sent (snd (callGemini G f (JArr (map js_of_message msgs)) w)) =
     (sent w ++ [gemini_request G (JArr contents)])%list
  /\ body (gemini_request G (JArr contents)) = JObj [("contents", JArr contents)].
Proof.
  intros contents.
  assert (Hc : Array_map gemini_content (JArr (map js_of_message msgs)) = Ok (JArr contents)).
  { unfold Array_map, contents.
    rewrite (map_result_map gemini_content js_of_message spec_gemini_message).
    - reflexivity.
    - apply gemini_content_message. }
  split; [exact Hc | split; [| split; [| split]]].
  - unfold contents. apply length_map.
  - intros i m Hi. unfold contents. rewrite nth_error_map, Hi. reflexivity.
  - now apply callGemini_sent.
  - reflexivity.
Qed.

Lemma gemini_translation_witness :
  nth_error
    (map spec_gemini_message
       [{| role := system; content := "Be concise." |};
        {| role := user; content := "hi" |};
        {| role := assistant; content := "hello" |}]) 2
  = Some (JObj [("role", JStr "model");
                ("parts", JArr [JObj [("text", JStr "hello")]])]).
Proof.
  refine (proj1 (proj2 (proj2
    (gemini_translation "AIzaSyExampleKey" (stub (success (gemini_reply ["foo"])))
       [{| role := system; content := "Be concise." |};
        {| role := user; content := "hi" |};
        {| role := assistant; content := "hello" |}] quiet)))
    2 {| role := assistant; content := "hello" |} eq_refl).
Defined.

(** C5. For every sequence of ChatMessages, [callOpenAI] sends one
    request whose [messages] field is the sequence itself, each message
    with its role and content unchanged; the request goes to the
    chat-completions endpoint with the key as a bearer token, the model
    "gpt-3.5-turbo", temperature 0.2 and max_tokens 300. *)
Theorem openai_translation (O : string) (f : http_request -> result upstream_response)
        (msgs : list ChatMessage) (w : world) :
  let messages := JArr (map js_of_message msgs) in
  let req := openai_request O messages in
  sent (snd (callOpenAI O f messages w)) = (sent w ++ [req])%list
  /\ get (body req) "messages" = Ok (JArr (map js_of_message msgs))
  /\ (forall i m, nth_error msgs i = Some m ->
        exists x, nth_error (map js_of_message msgs) i = Some x
                  /\ get x "role" = Ok (JStr (role_name (role m)))
                  /\ get x "content" = Ok (JStr (content m)))
  /\ url req = "https://api.openai.com/v1/chat/completions"
  /\ method req = "POST"
  /\ headers req = [("Content-Type", "application/json");
                    ("Authorization", "Bearer " ++ O)]
  /\ get (body req) "model" = Ok (JStr "gpt-3.5-turbo")
  /\ get (body req) "temperature" = Ok (JNum "0.2")
  /\ get (body req) "max_tokens" = Ok (JNum "300").
Proof.
  intros messages req.
  split; [apply callOpenAI_sent |].
  split; [reflexivity |].
  split.
  - intros i m Hi. exists (js_of_message m).
    rewrite nth_error_map, Hi. repeat split.
  - repeat split.
Qed.

Lemma openai_translation_witness :
  exists x,
    nth_error (map js_of_message
                 [{| role := system; content := "Be concise." |};
                  {| role := user; content := "hi" |}]) 0 = Some x
    /\ get x "role" = Ok (JStr "system")
    /\ get x "content" = Ok (JStr "Be concise.").
Proof.
  refine (proj1 (proj2 (proj2
    (openai_translation "sk-example" (stub (failure 500))
       [{| role := system; content := "Be concise." |};
        {| role := user; content := "hi" |}] quiet)))
    0 {| role := system; content := "Be concise." |} eq_refl).
Defined.

(** ** The reply of the Google adapter *)

Lemma get_Ok_not_nullish (v x : jsval) (k : string) :
  get v k = Ok x -> nullish v = false.
Proof. destruct v; simpl; intros H; try discriminate; reflexivity. Qed.

Lemma get_index0_Ok_not_nullish (v x : jsval) :
  get_index0 v = Ok x -> nullish v = false.
Proof. destruct v; simpl; intros H; try discriminate; reflexivity. Qed.

Lemma join_with_strings (sep : string) (texts : list string) :
  join_with ToString sep (map JStr texts) = Ok (String.concat sep texts).
Proof.
  induction texts as [|t texts IH]; [reflexivity|].
  destruct texts as [|t' texts]; [reflexivity|].
  change (join_with ToString sep (map JStr (t :: t' :: texts)))
    with (s <- Ok t ;; u <- join_with ToString sep (map JStr (t' :: texts)) ;;
          Ok (s ++ sep ++ u))%result.
  rewrite IH. reflexivity.
Qed.

Lemma map_text_parts (parts : list jsval) (texts : list string) :
  Forall2 text_part parts texts ->
  map_result (fun p => get p "text") parts = Ok (map JStr texts).
Proof.
  induction 1 as [|p t parts texts Hp _ IH]; simpl.
  - reflexivity.
  - rewrite Hp. simpl. rewrite IH. reflexivity.
Qed.

(** What the optional chain yields on a well-formed reply. *)
Lemma gemini_text_of_parts (data : jsval) (parts : list jsval) (texts : list string) :
  first_candidate_parts data parts ->
  Forall2 text_part parts texts ->
  gemini_text data =
  Ok (js_or (JStr (String.concat "" texts)) (JStr "(no content)")).
Proof.
  intros [first content rest Hc Hf Hp] Ht.
  unfold gemini_text, opt_chain.
  rewrite (get_Ok_not_nullish _ _ _ Hc), Hc. simpl.
  rewrite (get_Ok_not_nullish _ _ _ Hf), Hf. simpl.
  rewrite (get_Ok_not_nullish _ _ _ Hp), Hp. simpl.
  rewrite (map_text_parts _ _ Ht). simpl.
  rewrite join_with_strings. reflexivity.
Qed.

Lemma gemini_text_no_parts (data : jsval) :
  no_candidate_parts data -> gemini_text data = Ok (JStr "(no content)").
Proof.
  intros H. unfold gemini_text, opt_chain.
  destruct H as [Hd | c Hc Hn | c first Hc Hf Hn | c first content Hc Hf Hct Hn
                 | c first content parts Hc Hf Hct Hp Hn].
  - rewrite Hd. reflexivity.
  - rewrite (get_Ok_not_nullish _ _ _ Hc), Hc. simpl. rewrite Hn. reflexivity.
  - rewrite (get_Ok_not_nullish _ _ _ Hc), Hc. simpl.
    rewrite (get_index0_Ok_not_nullish _ _ Hf), Hf. simpl. rewrite Hn. reflexivity.
  - rewrite (get_Ok_not_nullish _ _ _ Hc), Hc. simpl.
    rewrite (get_index0_Ok_not_nullish _ _ Hf), Hf. simpl.
    rewrite (get_Ok_not_nullish _ _ _ Hct), Hct. simpl. rewrite Hn. reflexivity.
  - rewrite (get_Ok_not_nullish _ _ _ Hc), Hc. simpl.
    rewrite (get_index0_Ok_not_nullish _ _ Hf), Hf. simpl.
    rewrite (get_Ok_not_nullish _ _ _ Hct), Hct. simpl.
    rewrite (get_Ok_not_nullish _ _ _ Hp), Hp. simpl.
    destruct Hn as [Hn | ->]; [rewrite Hn|]; reflexivity.
Qed.

(** On a successful response [callGemini] answers with the assistant
    message whose content is [gemini_text] of the JSON body. *)
Lemma callGemini_success (G : string) (f : http_request -> result upstream_response)
      (messages contents data : jsval) (r : upstream_response) (w : world) :
  Array_map gemini_content messages = Ok contents ->
  f (gemini_request G contents) = Ok r ->
  ok r = true ->
  json r = Ok data ->
  fst (callGemini G f messages w) =
  (text <- gemini_text data ;;
   Ok (JObj [("role", JStr "assistant"); ("content", text)]))%result.
Proof.
  intros Hc Hf Hok Hj. unfold callGemini, bind, lift, fetch, throw, ret.
  rewrite Hc, Hf, Hok. simpl. rewrite Hj.
  destruct (gemini_text data); reflexivity.
Qed.

Lemma append_empty_r (s : string) : s ++ "" = s.
Proof. induction s as [|c s IH]; simpl; [reflexivity | now rewrite IH]. Qed.

Lemma concat_empty_cons (s : string) (l : list string) :
  String.concat "" (s :: l) = s ++ String.concat "" l.
Proof. destruct l; simpl; [now rewrite append_empty_r | reflexivity]. Qed.

(** A join without separator appends the piece of the first item to the
    join of the rest. *)
Lemma join_with_no_separator (conv : jsval -> result string) (x : jsval)
      (rest : list jsval) :
  join_with conv "" (x :: rest) =
  (s <- (if nullish x then Ok "" else conv x) ;;
   t <- join_with conv "" rest ;;
   Ok (s ++ t))%result.
Proof.
  destruct rest as [|y rest]; simpl;
    destruct (if nullish x then Ok "" else conv x) as [s|e]; simpl; try reflexivity.
  now rewrite append_empty_r.
Qed.

(** The texts read off readable parts, joined, are the texts of the text
    parts, concatenated. *)
Lemma join_readable_parts (parts : list jsval) :
  Forall readable_part parts ->
  exists vs,
    map_result (fun p => get p "text") parts = Ok vs
    /\ join_with ToString "" vs = Ok (String.concat "" (part_texts parts)).
Proof.
  induction 1 as [|p parts (v & Hv & Hread) _ (vs & Hmap & Hjoin)].
  - exists []. split; reflexivity.
  - exists (v :: vs). split.
    + simpl. rewrite Hv. simpl. rewrite Hmap. reflexivity.
    + rewrite join_with_no_separator, Hjoin.
      unfold part_texts. simpl flat_map. unfold part_text. rewrite Hv.
      destruct (nullish v) eqn:Hn; [reflexivity |].
      destruct Hread as [Hn' | [s Hs]]; [congruence |].
      rewrite Hs. cbn [app]. rewrite concat_empty_cons. reflexivity.
Qed.

Lemma gemini_text_of_readable_parts (data : jsval) (parts : list jsval) :
  candidate_parts data = Ok (JArr parts) ->
  Forall readable_part parts ->
  gemini_text data =
  Ok (js_or (JStr (String.concat "" (part_texts parts))) (JStr "(no content)")).
Proof.
  unfold candidate_parts. intros Hcp Hread.
  destruct (get data "candidates") as [c|e] eqn:Hc; simpl in Hcp; [|discriminate].
  destruct (get_index0 c) as [first|e] eqn:Hi; simpl in Hcp; [|discriminate].
  destruct (get first "content") as [content|e] eqn:Hct; simpl in Hcp; [|discriminate].
  destruct (join_readable_parts parts Hread) as (vs & Hmap & Hjoin).
  unfold gemini_text, opt_chain.
  rewrite (get_Ok_not_nullish _ _ _ Hc), Hc. simpl.
  rewrite (get_index0_Ok_not_nullish _ _ Hi), Hi. simpl.
  rewrite (get_Ok_not_nullish _ _ _ Hct), Hct. simpl.
  rewrite (get_Ok_not_nullish _ _ _ Hcp), Hcp. simpl.
  rewrite Hmap. simpl. rewrite Hjoin. reflexivity.
Qed.

Lemma join_items_readable (parts vs : list jsval) (s : string) :
  map_result (fun p => get p "text") parts = Ok vs ->
  join_with ToString "" vs = Ok s ->
  Forall readable_part parts.
Proof.
  revert vs s. induction parts as [|p parts IH]; intros vs s Hmap Hjoin.
  - constructor.
  - simpl in Hmap.
    destruct (get p "text") as [v|e] eqn:Hv; simpl in Hmap; [|discriminate].
    destruct (map_result (fun p => get p "text") parts) as [vs'|e] eqn:Hmap';
      simpl in Hmap; [|discriminate].
    injection Hmap as <-.
    rewrite join_with_no_separator in Hjoin.
    destruct (nullish v) eqn:Hn; simpl in Hjoin.
    + destruct (join_with ToString "" vs') as [t|e] eqn:Hj; [|discriminate].
      constructor; [| exact (IH vs' t eq_refl Hj)].
      exists v. split; [exact Hv | now left].
    + destruct (ToString v) as [sv|e] eqn:Hs; simpl in Hjoin; [|discriminate].
      destruct (join_with ToString "" vs') as [t|e] eqn:Hj; [|discriminate].
      constructor; [| exact (IH vs' t eq_refl Hj)].
      exists v. split; [exact Hv | right; now exists sv].
Qed.

(** Every reply that the optional chain yields comes from a response
    without candidate or parts, or from one whose first candidate has
    readable parts. *)
Lemma gemini_text_returns (data v : jsval) :
  gemini_text data = Ok v ->
  no_candidate_parts data
  \/ exists parts, candidate_parts data = Ok (JArr parts) /\ Forall readable_part parts.
Proof.
  unfold gemini_text, opt_chain. intros H.
  destruct (nullish data) eqn:Hnd; [left; now apply no_data |].
  destruct (get data "candidates") as [c|e] eqn:Hc; simpl in H; [|discriminate].
  destruct (nullish c) eqn:Hnc; [left; now apply (no_candidates data c) |].
  destruct (get_index0 c) as [first|e] eqn:Hi; simpl in H; [|discriminate].
  destruct (nullish first) eqn:Hnf; [left; now apply (no_first_candidate data c first) |].
  destruct (get first "content") as [content|e] eqn:Hct; simpl in H; [|discriminate].
  destruct (nullish content) eqn:Hnct;
    [left; now apply (no_content data c first content) |].
  destruct (get content "parts") as [parts|e] eqn:Hp; simpl in H; [|discriminate].
  destruct (nullish parts) eqn:Hnp;
    [left; apply (no_parts data c first content parts); auto |].
  right. simpl.
  destruct parts as [| | | | | items |]; simpl in H; try discriminate.
  exists items. split.
  { unfold candidate_parts. rewrite Hc. simpl. rewrite Hi. simpl. rewrite Hct. exact Hp. }
  destruct (map_result (fun p => get p "text") items) as [vs|e] eqn:Hmap;
    simpl in H; [|discriminate].
  destruct (join_with ToString "" vs) as [s|e] eqn:Hj; simpl in H; [|discriminate].
  now apply (join_items_readable items vs s).
Qed.

(** C3, amended. On a successful response whose first candidate has
    parts, the reply of [callGemini] is the assistant message whose
    content is the concatenation, in order, of the texts of the text
    parts (a part without text adds nothing) when that concatenation is
    non-empty, and "(no content)" when it is empty; the content is
    "(no content)" as well when the response has no candidate or no
    parts.  So the content is "(no content)" exactly when there is no
    candidate or no parts, or the concatenation is empty or is that very
    string.  Every reply of the adapter falls under one of the two
    cases. *)
Theorem gemini_reply_content (G : string) (f : http_request -> result upstream_response)
        (messages contents data : jsval) (r : upstream_response) (w : world) :
  Array_map gemini_content messages = Ok contents ->
  f (gemini_request G contents) = Ok r ->
  ok r = true ->
  json r = Ok data ->
  (forall parts texts,
      first_candidate_parts data parts ->
      Forall2 text_part parts texts ->
      fst (callGemini G f messages w) =
      Ok (assistant_message (if String.eqb (String.concat "" texts) ""
                             then "(no content)"
                             else String.concat "" texts)))
  /\ (no_candidate_parts data ->
      fst (callGemini G f messages w) = Ok (assistant_message "(no content)"))
  /\ (forall parts texts,
      first_candidate_parts data parts ->
      Forall2 text_part parts texts ->
      (fst (callGemini G f messages w) = Ok (assistant_message "(no content)")
       <-> String.concat "" texts = "" \/ String.concat "" texts = "(no content)"))
  /\ (forall parts,
      candidate_parts data = Ok (JArr parts) ->
      Forall readable_part parts ->
      fst (callGemini G f messages w) =
      Ok (assistant_message (if String.eqb (String.concat "" (part_texts parts)) ""
                             then "(no content)"
                             else String.concat "" (part_texts parts)))
      /\ (fst (callGemini G f messages w) = Ok (assistant_message "(no content)")
          <-> String.concat "" (part_texts parts) = ""
              \/ String.concat "" (part_texts parts) = "(no content)"))
  /\ (forall reply,
      fst (callGemini G f messages w) = Ok reply ->
      no_candidate_parts data
      \/ exists parts, candidate_parts data = Ok (JArr parts)
                       /\ Forall readable_part parts)
  /\ (forall p s ps,
      get p "text" = Ok (JStr s) -> part_texts (p :: ps) = s :: part_texts ps)
  /\ (forall p v ps,
      get p "text" = Ok v -> nullish v = true -> part_texts (p :: ps) = part_texts ps).
Proof.
  intros Hc Hf Hok Hj.
  rewrite (callGemini_success G f messages contents data r w Hc Hf Hok Hj).
  assert (Hiff : forall t : string,
             Ok (assistant_message (if String.eqb t "" then "(no content)" else t)) =
             Ok (assistant_message "(no content)")
             <-> t = "" \/ t = "(no content)").
  { intros t. destruct (String.eqb_spec t "") as [He | Hne].
    - split; [intros _; now left | reflexivity].
    - split.
      + intros H. right. unfold assistant_message in H. congruence.
      + intros [He | He]; [contradiction | now rewrite He]. }
  assert (Hshape : forall t : string,
             (text <- Ok (js_or (JStr t) (JStr "(no content)")) ;;
              Ok (JObj [("role", JStr "assistant"); ("content", text)]))%result =
             Ok (assistant_message (if String.eqb t "" then "(no content)" else t))).
  { intros t. unfold js_or, assistant_message. simpl.
    destruct (String.eqb t ""); reflexivity. }
  assert (Hparts : forall parts texts,
             first_candidate_parts data parts ->
             Forall2 text_part parts texts ->
             (text <- gemini_text data ;;
              Ok (JObj [("role", JStr "assistant"); ("content", text)]))%result =
             Ok (assistant_message (if String.eqb (String.concat "" texts) ""
                                    then "(no content)"
                                    else String.concat "" texts))).
  { intros parts texts Hp Ht.
    rewrite (gemini_text_of_parts data parts texts Hp Ht). apply Hshape. }
  assert (Hread : forall parts,
             candidate_parts data = Ok (JArr parts) ->
             Forall readable_part parts ->
             (text <- gemini_text data ;;
              Ok (JObj [("role", JStr "assistant"); ("content", text)]))%result =
             Ok (assistant_message
                   (if String.eqb (String.concat "" (part_texts parts)) ""
                    then "(no content)"
                    else String.concat "" (part_texts parts)))).
  { intros parts Hp Hr.
    rewrite (gemini_text_of_readable_parts data parts Hp Hr). apply Hshape. }
  split; [exact Hparts |].
  split; [intros Hn; now rewrite (gemini_text_no_parts data Hn) |].
  split; [intros parts texts Hp Ht; rewrite (Hparts parts texts Hp Ht); apply Hiff |].
  split; [intros parts Hp Hr; rewrite (Hread parts Hp Hr);
          split; [reflexivity | apply Hiff] |].
  split; [| split].
  - intros reply Hreply.
    destruct (gemini_text data) as [v|e] eqn:Hv; [|discriminate].
    now apply (gemini_text_returns data v).
  - intros p s ps Hp. unfold part_texts. simpl flat_map. unfold part_text.
    rewrite Hp. reflexivity.
  - intros p v ps Hp Hn. unfold part_texts. simpl flat_map. unfold part_text.
    rewrite Hp, Hn. reflexivity.
Qed.

Lemma gemini_reply_content_witness :
  fst (callGemini "AIzaSyExampleKey" (stub (success (gemini_mixed_reply "foo" "bar")))
         (JArr [js_of_message {| role := user; content := "hi" |}]) quiet)
  = Ok (assistant_message "foobar").
Proof.
  refine (proj1 (proj1 (proj2 (proj2 (proj2
    (gemini_reply_content "AIzaSyExampleKey"
       (stub (success (gemini_mixed_reply "foo" "bar")))
       (JArr [js_of_message {| role := user; content := "hi" |}])
       (JArr [spec_gemini_message {| role := user; content := "hi" |}])
       (gemini_mixed_reply "foo" "bar")
       (success (gemini_mixed_reply "foo" "bar"))
       quiet eq_refl eq_refl eq_refl eq_refl))))
    [JObj [("text", JStr "foo")];
     JObj [("functionCall", JObj [("name", JStr "quote"); ("args", JObj [])])];
     JObj [("text", JStr "bar")]]
    eq_refl _)).
  repeat constructor.
  - exists (JStr "foo"). split; [reflexivity | right; now exists "foo"].
  - exists JUndefined. split; [reflexivity | now left].
  - exists (JStr "bar"). split; [reflexivity | right; now exists "bar"].
Defined.

(** The reply of the specification's example: two text parts "foo" and
    "bar" give "foobar". *)
Example gemini_foo_bar :
  fst (callGemini "AIzaSyExampleKey" (stub (success (gemini_reply ["foo"; "bar"])))
         (JArr [js_of_message {| role := user; content := "hi" |}]) quiet)
  = Ok (assistant_message "foobar").
Proof. reflexivity. Qed.

(** C3 as stated fails: the first candidate of this successful response
    has one text part, with the empty text; the concatenation of the
    texts is the empty string, yet the reply's content is
    "(no content)". *)
Lemma gemini_empty_text_counterexample :
  candidate_parts (gemini_reply [""]) = Ok (JArr [JObj [("text", JStr "")]])
  /\ String.concat "" [""] = ""
  /\ fst (callGemini "AIzaSyExampleKey" (stub (success (gemini_reply [""])))
            (JArr [js_of_message {| role := user; content := "hi" |}]) quiet)
     = Ok (assistant_message "(no content)").
Proof. repeat split. Qed.

(** ** The chat route *)

Lemma get_body_field (req_body : jsval) (k : string) :
  exists x, get (js_or req_body (JObj [])) k = Ok x.
Proof. apply get_not_nullish, js_or_body_not_nullish. Qed.

(** C6. When the [messages] read from the request body is not an array
    (the field is missing, or holds anything else), [api_chat] answers
    400 with the error body and leaves the world as it was: no request
    is sent upstream, by either adapter, whatever the two keys are. *)
Theorem chat_rejects_non_array (G O : string) (f : http_request -> result upstream_response)
        (req_body : jsval) (w : world) :
  (forall l, get (js_or req_body (JObj [])) "messages" <> Ok (JArr l)) ->
  api_chat G O f req_body w =
  (Ok {| res_status := 400;
         res_body := JObj [("error", JStr "Body must include messages: []")] |}, w)
  /\ sent (snd (api_chat G O f req_body w)) = sent w.
Proof.
  intros Hm.
  assert (H : api_chat G O f req_body w =
              (Ok {| res_status := 400;
                     res_body := JObj [("error", JStr "Body must include messages: []")] |}, w)).
  { destruct (get_body_field req_body "messages") as [x Hx].
    unfold api_chat, try_catch, bind, lift. rewrite Hx.
    destruct x; try reflexivity.
    now elim (Hm items). }
  split; [exact H | now rewrite H].
Qed.

Lemma chat_rejects_non_array_witness :
  api_chat "AIzaSyExampleKey" "sk-example" (stub (success (gemini_reply ["foo"])))
    (JObj [("messages", JStr "not-an-array")]) quiet =
  (Ok {| res_status := 400;
         res_body := JObj [("error", JStr "Body must include messages: []")] |}, quiet).
Proof.
  apply (chat_rejects_non_array "AIzaSyExampleKey" "sk-example"
           (stub (success (gemini_reply ["foo"])))
           (JObj [("messages", JStr "not-an-array")]) quiet).
  intros l H. discriminate H.
Defined.

(** C7. When the request of the selected adapter is answered with a
    non-success status, the adapter raises the error whose message
    carries that status ("Gemini HTTP <status>", "OpenAI HTTP <status>"),
    and [api_chat] answers 500 with the fixed error body, which is not
    the fallback reply and holds nothing of the upstream response; the
    error goes to the console. *)
Theorem upstream_failure_is_500 (G O : string) (f : http_request -> result upstream_response)
        (req_body : jsval) (l : list jsval) (req : http_request)
        (r : upstream_response) (w : world) :
  get (js_or req_body (JObj [])) "messages" = Ok (JArr l) ->
  selected_request G O (JArr l) = Some req ->
  f req = Ok r ->
  ok r = false ->
  let w' := {| sent := sent w ++ [req]; console := console w |} in
  (chat_provider G O = google ->
   callGemini G f (JArr l) w = (Throw (Error ("Gemini HTTP " ++ N_to_string (status r))), w')
   /\ console (snd (api_chat G O f req_body w)) =
      (console w ++ [Error ("Gemini HTTP " ++ N_to_string (status r))])%list)
  /\ (chat_provider G O = openai ->
      callOpenAI O f (JArr l) w = (Throw (Error ("OpenAI HTTP " ++ N_to_string (status r))), w')
      /\ console (snd (api_chat G O f req_body w)) =
         (console w ++ [Error ("OpenAI HTTP " ++ N_to_string (status r))])%list)
  /\ chat_provider G O <> none
  /\ fst (api_chat G O f req_body w) =
     Ok {| res_status := 500;
           res_body := JObj [("error", JStr "Failed to process chat request.")] |}
  /\ fst (api_chat G O f req_body w) <>
     Ok (res_json (JObj [("message", fallback_message); ("provider", JStr "none")]))
  /\ sent (snd (api_chat G O f req_body w)) = (sent w ++ [req])%list.
Proof.
  intros Hm Hsel Hf Hok w'.
  rewrite (api_chat_selects G O f req_body l Hm).
  unfold selected_request in Hsel.
  destruct (chat_provider G O) eqn:Hp.
  - destruct (Array_map gemini_content (JArr l)) as [contents|e] eqn:Hc; [|discriminate].
    injection Hsel as <-.
    assert (Hcall : callGemini G f (JArr l) w =
                    (Throw (Error ("Gemini HTTP " ++ N_to_string (status r))), w')).
    { unfold callGemini, bind, lift, fetch, throw. rewrite Hc, Hf, Hok. reflexivity. }
    unfold try_catch, bind. rewrite Hcall.
    repeat split; try discriminate.
  - injection Hsel as <-.
    assert (Hcall : callOpenAI O f (JArr l) w =
                    (Throw (Error ("OpenAI HTTP " ++ N_to_string (status r))), w')).
    { unfold callOpenAI, bind, lift, fetch, throw. rewrite Hf, Hok. reflexivity. }
    unfold try_catch, bind. rewrite Hcall.
    repeat split; try discriminate.
  - discriminate.
Qed.

Lemma upstream_failure_is_500_witness :
  fst (api_chat "AIzaSyExampleKey" "" (stub (failure 500))
         (JObj [("messages", JArr [js_of_message {| role := user; content := "hi" |}])]) quiet)
  = Ok {| res_status := 500;
          res_body := JObj [("error", JStr "Failed to process chat request.")] |}.
Proof.
  refine (proj1 (proj2 (proj2 (proj2
    (upstream_failure_is_500 "AIzaSyExampleKey" "" (stub (failure 500))
       (JObj [("messages", JArr [js_of_message {| role := user; content := "hi" |}])])
       [js_of_message {| role := user; content := "hi" |}]
       (gemini_request "AIzaSyExampleKey"
          (JArr [spec_gemini_message {| role := user; content := "hi" |}]))
       (failure 500) quiet eq_refl eq_refl eq_refl eq_refl))))).
Defined.

(** The key read at start-up is empty exactly when the variable is
    unset or set to the empty string. *)
Lemma env_or_empty_unset (v : option string) :
  env_or_empty v = "" <-> v = None \/ v = Some "".
Proof.
  destruct v as [[|c s]|]; simpl; split; auto; try discriminate.
  intros [H | H]; discriminate H.
Qed.

(** C8. When neither key is configured (each variable of the
    environment unset or empty), [api_chat] answers every body whose
    [messages] is an array with status 200, provider "none" and the
    fixed assistant message that tells to set a key, and leaves the
    world as it was: nothing is sent upstream. *)
Theorem chat_fallback (g o : option string) (f : http_request -> result upstream_response)
        (req_body : jsval) (l : list jsval) (w : world) :
  g = None \/ g = Some "" ->
  o = None \/ o = Some "" ->
  get (js_or req_body (JObj [])) "messages" = Ok (JArr l) ->
  api_chat (env_or_empty g) (env_or_empty o) f req_body w =
  (Ok {| res_status := 200;
         res_body :=
           JObj [("message",
                  JObj [("role", JStr "assistant");
                        ("content",
                         JStr "No AI provider configured. Set GOOGLE_API_KEY (Gemini) or OPENAI_API_KEY on the server.")]);
                 ("provider", JStr "none")] |}, w)
  /\ sent (snd (api_chat (env_or_empty g) (env_or_empty o) f req_body w)) = sent w.
Proof.
  intros Hg Ho Hm.
  apply env_or_empty_unset in Hg, Ho. rewrite Hg, Ho.
  rewrite (api_chat_selects "" "" f req_body l Hm).
  split; reflexivity.
Qed.

Lemma chat_fallback_witness :
  sent (snd (api_chat (env_or_empty None) (env_or_empty None)
               (stub (success (gemini_reply ["foo"])))
               (JObj [("messages", JArr [js_of_message {| role := user; content := "hi" |}])])
               quiet)) = [].
Proof.
  refine (proj2 (chat_fallback None None (stub (success (gemini_reply ["foo"])))
                   (JObj [("messages", JArr [js_of_message {| role := user; content := "hi" |}])])
                   [js_of_message {| role := user; content := "hi" |}]
                   quiet (or_introl eq_refl) (or_introl eq_refl) eq_refl)).
Defined.

(** ** The intent route *)

(** The falsy values. *)
Lemma falsy_values (v : jsval) :
  truthy v = false <->
  v = JUndefined \/ v = JNull \/ v = JBool false \/ v = JStr ""
  \/ v = JNum "0" \/ v = JNum "NaN".
Proof.
  split.
  - destruct v as [| |[]|n|s| |]; simpl; intros H; try discriminate; auto.
    + apply negb_false_iff, orb_true_iff in H.
      destruct H as [H | H]; apply String.eqb_eq in H; subst; auto 6.
    + apply negb_false_iff, String.eqb_eq in H. subst. auto.
  - intros [-> | [-> | [-> | [-> | [-> | ->]]]]]; reflexivity.
Qed.

(** C9, amended. [api_intent] answers 400 with the error body exactly
    when the [intent] read from the body is falsy: missing, or [null],
    [false], [0], [NaN] or the empty string; for every other intent it
    answers 200 with [{status: "received", intent}], the intent being the
    value supplied, unchanged.  The world is left as it was. *)
Theorem intent_echo (req_body intent : jsval) (w : world) :
  get (js_or req_body (JObj [])) "intent" = Ok intent ->
  (truthy intent = false ->
   api_intent req_body w =
   (Ok {| res_status := 400; res_body := JObj [("error", JStr "No intent provided.")] |}, w))
  /\ (truthy intent = true ->
      api_intent req_body w =
      (Ok {| res_status := 200;
             res_body := JObj [("status", JStr "received"); ("intent", intent)] |}, w))
  /\ ((exists resp w', api_intent req_body w = (Ok resp, w') /\ res_status resp = 400%N)
      <-> intent = JUndefined \/ intent = JNull \/ intent = JBool false
          \/ intent = JStr "" \/ intent = JNum "0" \/ intent = JNum "NaN").
Proof.
  intros Hi.
  assert (Hrun : api_intent req_body w =
                 if truthy intent
                 then (Ok {| res_status := 200;
                             res_body := JObj [("status", JStr "received");
                                               ("intent", intent)] |}, w)
                 else (Ok {| res_status := 400;
                             res_body := JObj [("error", JStr "No intent provided.")] |}, w)).
  { unfold api_intent, bind, lift. rewrite Hi.
    destruct (truthy intent); reflexivity. }
  split; [| split].
  - intros Ht. now rewrite Hrun, Ht.
  - intros Ht. now rewrite Hrun, Ht.
  - rewrite <- falsy_values, Hrun. destruct (truthy intent).
    + split; [| discriminate].
      intros (resp & w' & Heq & Hst). injection Heq as <- _. discriminate Hst.
    + split; [reflexivity |].
      intros _. eexists _, _. split; reflexivity.
Qed.

Lemma intent_echo_witness :
  api_intent
    (JObj [("intent", JObj [("action", JStr "swap"); ("amount", JStr "1")])]) quiet =
  (Ok {| res_status := 200;
         res_body := JObj [("status", JStr "received");
                           ("intent", JObj [("action", JStr "swap"); ("amount", JStr "1")])] |},
   quiet).
Proof.
  refine (proj1 (proj2
    (intent_echo
       (JObj [("intent", JObj [("action", JStr "swap"); ("amount", JStr "1")])])
       (JObj [("action", JStr "swap"); ("amount", JStr "1")])
       quiet eq_refl)) eq_refl).
Defined.

(** C9 as stated fails: this body has an [intent] field, holding
    [false], and the route answers 400. *)
Lemma intent_present_counterexample :
  own_property "intent" [("intent", JBool false)] = Some (JBool false)
  /\ api_intent (JObj [("intent", JBool false)]) quiet =
     (Ok {| res_status := 400; res_body := JObj [("error", JStr "No intent provided.")] |},
      quiet).
Proof. split; reflexivity. Qed.

(** ** Content that is no string *)

Lemma join_with_convertible (sep : string) (items : list jsval) :
  Forall (fun v => (convertible v = true -> exists s, ToString v = Ok s)
                   /\ (convertible v = false -> ToString v = Throw TypeError)) items ->
  (forallb convertible items = true -> exists s, join_with ToString sep items = Ok s)
  /\ (forallb convertible items = false -> join_with ToString sep items = Throw TypeError).
Proof.
  induction 1 as [|x rest [Hyes Hno] _ [IHyes IHno]].
  - split; [intros _; now exists "" | discriminate].
  - assert (Hx : convertible x = true ->
                 exists s, (if nullish x then Ok "" else ToString x) = Ok s).
    { intros Hc. destruct (nullish x); [now exists "" | now apply Hyes]. }
    assert (Hx' : convertible x = false ->
                  (if nullish x then Ok "" else ToString x) = Throw TypeError).
    { intros Hc. destruct x; simpl in Hc; try discriminate; simpl nullish; cbv iota;
        now apply Hno. }
    simpl forallb.
    change (join_with ToString sep (x :: rest))
      with (s <- (if nullish x then Ok "" else ToString x) ;;
            match rest with
            | [] => Ok s
            | _ :: _ => (t <- join_with ToString sep rest ;; Ok (s ++ sep ++ t))
            end)%result.
    destruct (convertible x).
    + destruct (Hx eq_refl) as [s ->]. simpl.
      destruct rest as [|y rest]; [split; [intros _; now exists s | discriminate] |].
      split.
      * intros Hr. destruct (IHyes Hr) as [t ->]. simpl. eauto.
      * intros Hr. now rewrite (IHno Hr).
    + rewrite (Hx' eq_refl). split; [discriminate | reflexivity].
Qed.

(** [String(v)] returns for a value with a primitive value and throws a
    TypeError for any other. *)
Lemma ToString_convertible (v : jsval) :
  (convertible v = true -> exists s, ToString v = Ok s)
  /\ (convertible v = false -> ToString v = Throw TypeError).
Proof.
  induction v as [| | b | n | s | items IH | props _] using jsval_nested_ind;
    try (split; [intros _; simpl; eauto | discriminate]).
  - destruct b; eauto.
  - apply (join_with_convertible "," items IH).
  - simpl. destruct (has_own_property "toString" props); split; simpl; eauto; discriminate.
Qed.

Lemma convertible_or_empty (v : jsval) :
  convertible (js_or v (JStr "")) = convertible v.
Proof.
  unfold js_or. destruct (truthy v) eqn:Ht; [reflexivity|].
  destruct v; simpl in *; try reflexivity; discriminate.
Qed.

(** C10, amended. For a message that is neither [null] nor [undefined],
    the part that the translation produces has the text
    [String(m.content || '')]: the empty string for every falsy content
    (absent, [null], [false], [0], [NaN], empty), the string itself for
    a string, and some string for every content with a primitive value
    (a primitive, an object without an own [toString] property, an array
    of such).  For any other content the translation throws a
    TypeError. *)
Theorem gemini_text_of_content (m r c : jsval) :
  get m "role" = Ok r ->
  get m "content" = Ok c ->
  let part text :=
    JObj [("role", JStr (if strict_eq_string r "assistant" then "model" else "user"));
          ("parts", JArr [JObj [("text", JStr text)]])] in
  (truthy c = false -> gemini_content m = Ok (part ""))
  /\ (forall s, c = JStr s -> gemini_content m = Ok (part s))
  /\ (convertible c = true ->
      exists text, ToString (js_or c (JStr "")) = Ok text
                   /\ gemini_content m = Ok (part text))
  /\ (convertible c = false -> gemini_content m = Throw TypeError).
Proof.
  intros Hr Hc part.
  assert (Hrun : gemini_content m =
                 (text <- ToString (js_or c (JStr "")) ;; Ok (part text))%result).
  { unfold gemini_content. rewrite Hr, Hc. reflexivity. }
  split; [| split; [| split]].
  - intros Ht. rewrite Hrun. unfold js_or. rewrite Ht. reflexivity.
  - intros s ->. rewrite Hrun, ToString_string_or_empty. reflexivity.
  - intros Hv. rewrite <- convertible_or_empty in Hv.
    destruct (proj1 (ToString_convertible _) Hv) as [text Ht].
    exists text. split; [exact Ht |]. rewrite Hrun, Ht. reflexivity.
  - intros Hv. rewrite <- convertible_or_empty in Hv.
    rewrite Hrun, (proj2 (ToString_convertible _) Hv). reflexivity.
Qed.

Lemma gemini_text_of_content_witness :
  gemini_content (JObj [("role", JStr "user"); ("content", JNull)]) =
  Ok (JObj [("role", JStr "user"); ("parts", JArr [JObj [("text", JStr "")]])]).
Proof.
  refine (proj1 (gemini_text_of_content
                   (JObj [("role", JStr "user"); ("content", JNull)])
                   (JStr "user") JNull eq_refl eq_refl) eq_refl).
Defined.

(** C10 as stated fails: the content of this message is an object with
    an own [toString] property; building the contents throws, and so
    does [callGemini], before anything is sent. *)
Lemma gemini_content_throws_counterexample :
  Array_map gemini_content
    (JArr [JObj [("role", JStr "user");
                 ("content", JObj [("toString", JStr "x")])]])
  = Throw TypeError
  /\ callGemini "AIzaSyExampleKey" (stub (success (gemini_reply ["foo"])))
       (JArr [JObj [("role", JStr "user");
                    ("content", JObj [("toString", JStr "x")])]]) quiet
     = (Throw TypeError, quiet).
Proof. split; reflexivity. Qed.

(** ** What the chat route does to the world *)

Lemma callGemini_effects (G : string) (f : http_request -> result upstream_response)
      (messages : jsval) (w : world) :
  console (snd (callGemini G f messages w)) = console w
  /\ ((exists e, Array_map gemini_content messages = Throw e
                 /\ fst (callGemini G f messages w) = Throw e
                 /\ sent (snd (callGemini G f messages w)) = sent w)
      \/ (exists contents,
             Array_map gemini_content messages = Ok contents
             /\ sent (snd (callGemini G f messages w)) =
                (sent w ++ [gemini_request G contents])%list)).
Proof.
  destruct (Array_map gemini_content messages) as [contents|e] eqn:Hc.
  - split.
    + unfold callGemini, bind, lift, fetch, throw, ret. rewrite Hc.
      destruct (f (gemini_request G contents)) as [r|e]; [|reflexivity].
      destruct (ok r); simpl; [|reflexivity].
      destruct (json r) as [data|e]; [|reflexivity].
      destruct (gemini_text data); reflexivity.
    + right. exists contents. split; [reflexivity | now apply callGemini_sent].
  - rewrite (callGemini_contents_throw G f messages e w Hc).
    split; [reflexivity | left; exists e; repeat split].
Qed.

Lemma callOpenAI_console (O : string) (f : http_request -> result upstream_response)
      (messages : jsval) (w : world) :
  console (snd (callOpenAI O f messages w)) = console w.
Proof.
  unfold callOpenAI, bind, lift, fetch, throw.
  destruct (f (openai_request O messages)) as [r|e]; [|reflexivity].
  destruct (ok r); simpl; [|reflexivity].
  destruct (json r) as [data|e]; [|reflexivity].
  destruct (_ <- get data "choices" ;; _)%result; reflexivity.
Qed.

(** The [try] of an adapter followed by the reply, under the [catch]
    block: the answer is 200 when the adapter returns and the failure
    answer, with the error logged, when it throws. *)
Lemma try_adapter (c : IO jsval) (tag : string) (w : world) :
  let out := try_catch
               (reply <- c ;;
                ret (res_json (JObj [("message", reply); ("provider", JStr tag)])))%io
               chat_catch w in
  sent (snd out) = sent (snd (c w))
  /\ ((exists reply, fst (c w) = Ok reply
                     /\ fst out = Ok (res_json (JObj [("message", reply);
                                                      ("provider", JStr tag)]))
                     /\ console (snd out) = console (snd (c w)))
      \/ (exists e, fst (c w) = Throw e
                    /\ fst out = Ok chat_failure
                    /\ console (snd out) = (console (snd (c w)) ++ [e])%list)).
Proof.
  unfold try_catch, bind, ret, chat_catch, console_error.
  destruct (c w) as [[reply|e] w']; simpl.
  - split; [reflexivity | left; exists reply; repeat split].
  - split; [reflexivity | right; exists e; repeat split].
Qed.

Lemma api_chat_not_array (G O : string)
      (f : http_request -> result upstream_response) (req_body : jsval) (w : world)
      (x : jsval) :
  get (js_or req_body (JObj [])) "messages" = Ok x ->
  (forall l, x <> JArr l) ->
  fst (api_chat G O f req_body w) =
  Ok {| res_status := 400;
        res_body := JObj [("error", JStr "Body must include messages: []")] |}
  /\ snd (api_chat G O f req_body w) = w.
Proof.
  intros Hx Hno. unfold api_chat, try_catch, bind, lift. rewrite Hx.
  destruct x; try (split; reflexivity).
  now elim (Hno items).
Qed.

(** Every run of the chat route, by what it answers, sends and logs. *)
Lemma api_chat_outcome (G O : string) (f : http_request -> result upstream_response)
      (req_body : jsval) (w : world) :
  let out := api_chat G O f req_body w in
  exists resp reqs logs,
    fst out = Ok resp
    /\ sent (snd out) = (sent w ++ reqs)%list
    /\ console (snd out) = (console w ++ logs)%list
    /\ ((res_status resp = 400%N /\ reqs = [] /\ logs = []
         /\ forall l, get (js_or req_body (JObj [])) "messages" <> Ok (JArr l))
        \/ (exists l,
               get (js_or req_body (JObj [])) "messages" = Ok (JArr l)
               /\ (reqs = [] \/ exists req, selected_request G O (JArr l) = Some req
                                            /\ reqs = [req])
               /\ ((res_status resp = 200%N /\ logs = []
                    /\ get (res_body resp) "provider" =
                       Ok (JStr (provider_tag (chat_provider G O))))
                   \/ (resp = chat_failure /\ exists e, logs = [e])))).
Proof.
  intros out. subst out.
  destruct (get_body_field req_body "messages") as [x Hx].
  assert (Harr : (exists l, x = JArr l) \/ (forall l, x <> JArr l)).
  { destruct x; try (right; intros l H; discriminate H). left. now exists items. }
  destruct Harr as [[l ->] | Hno].
  - rewrite (api_chat_selects G O f req_body l Hx).
    unfold selected_request.
    destruct (chat_provider G O) eqn:Hp.
    + destruct (try_adapter (callGemini G f (JArr l)) "google" w) as [Hs Hcases].
      destruct (callGemini_effects G f (JArr l) w) as [Hcon Hsent].
      assert (Hreqs : exists reqs,
                 sent (snd (callGemini G f (JArr l) w)) = (sent w ++ reqs)%list
                 /\ (reqs = [] \/
                     exists req,
                       match Array_map gemini_content (JArr l) with
                       | Ok contents => Some (gemini_request G contents)
                       | Throw _ => None
                       end = Some req /\ reqs = [req])).
      { destruct Hsent as [(e & He & _ & Hse) | (contents & Hc & Hse)].
        - exists []. rewrite app_nil_r. split; [exact Hse | now left].
        - exists [gemini_request G contents]. split; [exact Hse |].
          right. exists (gemini_request G contents). rewrite Hc. now split. }
      destruct Hreqs as (reqs & Hse & Hsel).
      destruct Hcases as [(reply & _ & Hout & Hc) | (e & _ & Hout & Hc)].
      * eexists _, reqs, []. rewrite app_nil_r.
        refine (conj Hout (conj _ (conj _ _))); [congruence | congruence |].
        right. exists l. refine (conj Hx (conj Hsel _)).
        left. repeat split.
      * eexists _, reqs, [e].
        refine (conj Hout (conj _ (conj _ _))); [congruence | congruence |].
        right. exists l. refine (conj Hx (conj Hsel _)).
        right. split; [reflexivity | now exists e].
    + destruct (try_adapter (callOpenAI O f (JArr l)) "openai" w) as [Hs Hcases].
      pose proof (callOpenAI_console O f (JArr l) w) as Hcon.
      pose proof (callOpenAI_sent O f (JArr l) w) as Hse.
      assert (Hsel : [openai_request O (JArr l)] = [] \/
                     exists req, Some (openai_request O (JArr l)) = Some req
                                 /\ [openai_request O (JArr l)] = [req]).
      { right. now exists (openai_request O (JArr l)). }
      destruct Hcases as [(reply & _ & Hout & Hc) | (e & _ & Hout & Hc)].
      * eexists _, [openai_request O (JArr l)], []. rewrite app_nil_r.
        refine (conj Hout (conj _ (conj _ _))); [congruence | congruence |].
        right. exists l. refine (conj Hx (conj Hsel _)).
        left. repeat split.
      * eexists _, [openai_request O (JArr l)], [e].
        refine (conj Hout (conj _ (conj _ _))); [congruence | congruence |].
        right. exists l. refine (conj Hx (conj Hsel _)).
        right. split; [reflexivity | now exists e].
    + eexists _, [], []. rewrite !app_nil_r.
      refine (conj eq_refl (conj eq_refl (conj eq_refl _))).
      right. exists l. refine (conj Hx (conj (or_introl eq_refl) _)).
      left. repeat split.
  - destruct (api_chat_not_array G O f req_body w x Hx Hno) as [Hout Hw].
    eexists _, [], []. rewrite !app_nil_r.
    refine (conj Hout (conj _ (conj _ _))); [now rewrite Hw | now rewrite Hw |].
    left. refine (conj eq_refl (conj eq_refl (conj eq_refl _))). intros l H. rewrite Hx in H. injection H as ->. now elim (Hno l).
Qed.

(** C4. The test of the first [if] of the chat route (the key is truthy,
    or it starts with "AIza") is the test "the Google key is non-empty";
    so the chat route and the health endpoint classify every pair of
    credential strings alike: on a [messages] array the chat route runs
    the branch of the provider that the health endpoint reports, and
    every 200 answer it gives carries the same provider as the answer of
    the health endpoint, which is "google" exactly when the Google key
    is non-empty, "openai" when only the OpenAI key is, and "none" when
    neither is.  The health endpoint answers without sending anything
    upstream or writing to the console. *)
Theorem health_agrees_with_chat (G O node : string) :
  gemini_configured G = truthy (JStr G)
  /\ (gemini_configured G = true <-> G <> "")
  /\ chat_provider G O = health_provider G O
  /\ (forall w,
        api_health G O node w =
        (Ok (res_json (JObj [("ok", JBool true);
                             ("provider", JStr (provider_tag (chat_provider G O)));
                             ("node", JStr node)])), w))
  /\ (forall f req_body w w' resp hresp,
        fst (api_chat G O f req_body w) = Ok resp ->
        res_status resp = 200%N ->
        fst (api_health G O node w') = Ok hresp ->
        get (res_body resp) "provider" = get (res_body hresp) "provider")
  /\ (forall f req_body l,
        get (js_or req_body (JObj [])) "messages" = Ok (JArr l) ->
        api_chat G O f req_body =
        try_catch
          (match health_provider G O with
           | google =>
               (reply <- callGemini G f (JArr l) ;;
                ret (res_json (JObj [("message", reply); ("provider", JStr "google")])))%io
           | openai =>
               (reply <- callOpenAI O f (JArr l) ;;
                ret (res_json (JObj [("message", reply); ("provider", JStr "openai")])))%io
           | none =>
               ret (res_json (JObj [("message", fallback_message); ("provider", JStr "none")]))
           end)
          chat_catch)
  /\ (forall w,
        (G <> "" ->
         api_health G O node w =
         (Ok {| res_status := 200;
                res_body := JObj [("ok", JBool true); ("provider", JStr "google");
                                  ("node", JStr node)] |}, w))
        /\ (G = "" -> O <> "" ->
            api_health G O node w =
            (Ok {| res_status := 200;
                   res_body := JObj [("ok", JBool true); ("provider", JStr "openai");
                                     ("node", JStr node)] |}, w))
        /\ (G = "" -> O = "" ->
            api_health G O node w =
            (Ok {| res_status := 200;
                   res_body := JObj [("ok", JBool true); ("provider", JStr "none");
                                     ("node", JStr node)] |}, w))).
Proof.
  assert (Hsame : chat_provider G O = health_provider G O).
  { unfold chat_provider, health_provider, openai_configured.
    now rewrite gemini_configured_truthy. }
  split; [apply gemini_configured_truthy |].
  split; [rewrite gemini_configured_truthy; apply truthy_JStr |].
  split; [exact Hsame |].
  split; [intros w; unfold api_health, ret; now rewrite Hsame |].
  split; [| split].
  - intros f req_body w w' resp hresp Hout Hst Hh.
    unfold api_health, ret in Hh. simpl in Hh. injection Hh as <-.
    destruct (api_chat_outcome G O f req_body w)
      as (resp' & reqs & logs & Hout' & _ & _ & Hcases).
    rewrite Hout in Hout'. injection Hout' as <-.
    destruct Hcases as [(H4 & _) | (l & _ & _ & [(_ & _ & Hp) | (-> & _)])].
    + rewrite H4 in Hst. discriminate Hst.
    + rewrite Hp, Hsame. reflexivity.
    + discriminate Hst.
  - intros f req_body l Hm. rewrite <- Hsame. now apply api_chat_selects.
  - intros w. unfold api_health, health_provider, ret, res_json.
    destruct G as [|c G]; simpl.
    + destruct O as [|d O]; simpl.
      * repeat split; intros; try reflexivity; congruence.
      * repeat split; intros; try reflexivity; congruence.
    + repeat split; intros; try reflexivity; discriminate.
Qed.

Lemma chat_provider_keys (G O : string) :
  match chat_provider G O with
  | google => G <> ""
  | openai => G = "" /\ O <> ""
  | none => G = "" /\ O = ""
  end.
Proof.
  unfold chat_provider, openai_configured. rewrite gemini_configured_truthy.
  destruct G as [|c G]; simpl; [| discriminate].
  destruct O as [|d O]; simpl; split; try reflexivity; discriminate.
Qed.

Lemma api_chat_sent_cases (G O : string)
      (f : http_request -> result upstream_response) (req_body : jsval) (w : world) :
  sent (snd (api_chat G O f req_body w)) = sent w
  \/ (exists l req,
         get (js_or req_body (JObj [])) "messages" = Ok (JArr l)
         /\ selected_request G O (JArr l) = Some req
         /\ sent (snd (api_chat G O f req_body w)) = (sent w ++ [req])%list).
Proof.
  destruct (api_chat_outcome G O f req_body w)
    as (resp & reqs & logs & _ & Hsent & _ & Hcases).
  destruct Hcases as [(_ & -> & _) | (l & Hm & [-> | (req & Hsel & ->)] & _)].
  - left. now rewrite app_nil_r in Hsent.
  - left. now rewrite app_nil_r in Hsent.
  - right. now exists l, req.
Qed.

(** X1. The chat route never throws: whatever the body, the keys and
    the upstream do, it answers, and with status 200, 400 or 500. *)
Theorem api_chat_always_answers (G O : string)
        (f : http_request -> result upstream_response) (req_body : jsval) (w : world) :
  exists resp,
    fst (api_chat G O f req_body w) = Ok resp
    /\ (res_status resp = 200%N \/ res_status resp = 400%N \/ res_status resp = 500%N).
Proof.
  destruct (api_chat_outcome G O f req_body w)
    as (resp & reqs & logs & Hout & _ & _ & Hcases).
  exists resp. split; [exact Hout |].
  destruct Hcases as [(H4 & _) | (l & _ & _ & [(H2 & _) | (-> & _)])]; auto.
Qed.

(** X2. The chat route writes to the console exactly when it answers
    500: then one error is logged and the answer is the fixed failure
    body; with any other answer the console is left as it was. *)
Theorem api_chat_logs_exactly_failures (G O : string)
        (f : http_request -> result upstream_response) (req_body : jsval) (w : world) :
  let out := api_chat G O f req_body w in
  (fst out = Ok chat_failure
   /\ exists e, console (snd out) = (console w ++ [e])%list)
  \/ (exists resp, fst out = Ok resp
                   /\ res_status resp <> 500%N
                   /\ console (snd out) = console w).
Proof.
  intros out. subst out.
  destruct (api_chat_outcome G O f req_body w)
    as (resp & reqs & logs & Hout & _ & Hcon & Hcases).
  destruct Hcases as [(H4 & _ & -> & _) | (l & _ & _ & [(H2 & -> & _) | (-> & e & ->)])].
  - right. exists resp. rewrite app_nil_r in Hcon.
    repeat split; [exact Hout | rewrite H4; discriminate | exact Hcon].
  - right. exists resp. rewrite app_nil_r in Hcon.
    repeat split; [exact Hout | rewrite H2; discriminate | exact Hcon].
  - left. split; [exact Hout | now exists e].
Qed.

(** X3. One run of the chat route sends at most one request upstream,
    and when it sends one it is the request of the adapter that the keys
    select for the [messages] array of the body. *)
Theorem api_chat_sends_at_most_one (G O : string)
        (f : http_request -> result upstream_response) (req_body : jsval) (w : world) :
  let out := api_chat G O f req_body w in
  sent (snd out) = sent w
  \/ (exists l req,
         get (js_or req_body (JObj [])) "messages" = Ok (JArr l)
         /\ selected_request G O (JArr l) = Some req
         /\ sent (snd out) = (sent w ++ [req])%list).
Proof.
  intros out. subst out. apply api_chat_sent_cases.
Qed.

(** X4. Each key travels only to its own provider.  A request that the
    chat route adds is either the Google one, sent only when the Google
    key is non-empty, to the generate-content address with that key and
    with no header but the content type (so without the OpenAI key); or
    the OpenAI one, sent only when the Google key is empty and the
    OpenAI key is not, to the chat-completions address with the OpenAI
    key as bearer token. *)
Theorem keys_go_to_their_provider (G O : string)
        (f : http_request -> result upstream_response) (req_body : jsval) (w : world)
        (req : http_request) :
  In req (sent (snd (api_chat G O f req_body w))) ->
  In req (sent w)
  \/ (G <> ""
      /\ url req = "https://generativelanguage.googleapis.com/v1beta/models/gemini-1.5-flash:generateContent?key=" ++ G
      /\ headers req = [("Content-Type", "application/json")])
  \/ (G = "" /\ O <> ""
      /\ url req = "https://api.openai.com/v1/chat/completions"
      /\ headers req = [("Content-Type", "application/json");
                        ("Authorization", "Bearer " ++ O)]).
Proof.
  intros Hin.
  destruct (api_chat_sent_cases G O f req_body w)
    as [Hs | (l & req' & _ & Hsel & Hs)]; rewrite Hs in Hin.
  - now left.
  - apply in_app_or in Hin. destruct Hin as [Hin | [<- | []]]; [now left |].
    right. unfold selected_request in Hsel.
    pose proof (chat_provider_keys G O) as Hk.
    destruct (chat_provider G O); [| | discriminate].
    + destruct (Array_map gemini_content (JArr l)) as [contents|e]; [|discriminate].
      injection Hsel as <-. left. repeat split. exact Hk.
    + injection Hsel as <-. right. destruct Hk as [HG HO]. repeat split; assumption.
Qed.

Lemma keys_go_to_their_provider_witness :
  In (openai_request "sk-example" (JArr [js_of_message {| role := user; content := "hi" |}]))
     []
  \/ ("" <> ""
      /\ url (openai_request "sk-example"
                (JArr [js_of_message {| role := user; content := "hi" |}])) =
         "https://generativelanguage.googleapis.com/v1beta/models/gemini-1.5-flash:generateContent?key=" ++ ""
      /\ headers (openai_request "sk-example"
                    (JArr [js_of_message {| role := user; content := "hi" |}])) =
         [("Content-Type", "application/json")])
  \/ ("" = "" /\ "sk-example" <> ""
      /\ url (openai_request "sk-example"
                (JArr [js_of_message {| role := user; content := "hi" |}])) =
         "https://api.openai.com/v1/chat/completions"
      /\ headers (openai_request "sk-example"
                    (JArr [js_of_message {| role := user; content := "hi" |}])) =
         [("Content-Type", "application/json");
          ("Authorization", "Bearer " ++ "sk-example")]).
Proof.
  refine (keys_go_to_their_provider "" "sk-example"
            (stub (success (openai_reply (assistant_message "hello"))))
            (JObj [("messages", JArr [js_of_message {| role := user; content := "hi" |}])])
            quiet
            (openai_request "sk-example"
               (JArr [js_of_message {| role := user; content := "hi" |}])) _).
  left. reflexivity.
Defined.

(** ** The adapters, on replies and failures of every kind *)

Lemma api_chat_openai (G O : string) (f : http_request -> result upstream_response)
      (req_body : jsval) (l : list jsval) (w : world) :
  G = "" ->
  O <> "" ->
  get (js_or req_body (JObj [])) "messages" = Ok (JArr l) ->
  api_chat G O f req_body w =
  try_catch
    (reply <- callOpenAI O f (JArr l) ;;
     ret (res_json (JObj [("message", reply); ("provider", JStr "openai")])))%io
    chat_catch w.
Proof.
  intros -> HO Hm. rewrite (api_chat_selects "" O f req_body l Hm).
  unfold chat_provider, openai_configured. simpl.
  apply truthy_JStr in HO. simpl in HO. now rewrite HO.
Qed.

Lemma api_chat_gemini (G O : string) (f : http_request -> result upstream_response)
      (req_body : jsval) (l : list jsval) (w : world) :
  G <> "" ->
  get (js_or req_body (JObj [])) "messages" = Ok (JArr l) ->
  api_chat G O f req_body w =
  try_catch
    (reply <- callGemini G f (JArr l) ;;
     ret (res_json (JObj [("message", reply); ("provider", JStr "google")])))%io
    chat_catch w.
Proof.
  intros HG Hm. rewrite (api_chat_selects G O f req_body l Hm).
  unfold chat_provider. rewrite gemini_configured_truthy.
  apply truthy_JStr in HG. now rewrite HG.
Qed.

(** X5. With only the OpenAI key set, a successful upstream response
    with a first choice makes the chat route answer 200 with provider
    "openai" and, as message, the first choice's [message] exactly as
    the upstream gave it; one request was sent and nothing logged. *)
Theorem openai_reply_verbatim (G O : string) (f : http_request -> result upstream_response)
        (req_body : jsval) (l : list jsval) (r : upstream_response)
        (data choices first msg : jsval) (w : world) :
  G = "" ->
  O <> "" ->
  get (js_or req_body (JObj [])) "messages" = Ok (JArr l) ->
  f (openai_request O (JArr l)) = Ok r ->
  ok r = true ->
  json r = Ok data ->
  get data "choices" = Ok choices ->
  get_index0 choices = Ok first ->
  get first "message" = Ok msg ->
  api_chat G O f req_body w =
  (Ok {| res_status := 200;
         res_body := JObj [("message", msg); ("provider", JStr "openai")] |},
   {| sent := sent w ++ [openai_request O (JArr l)]; console := console w |}).
Proof.
  intros HG HO Hm Hf Hok Hj Hc Hi Hmsg.
  rewrite (api_chat_openai G O f req_body l w HG HO Hm).
  unfold try_catch, callOpenAI, bind, fetch, lift, ret.
  rewrite Hf. simpl. rewrite Hok. simpl. rewrite Hj. simpl.
  rewrite Hc. simpl. rewrite Hi. simpl. rewrite Hmsg.
  reflexivity.
Qed.

Lemma openai_reply_verbatim_witness :
  api_chat "" "sk-example" (stub (success (openai_reply (assistant_message "hello"))))
    (JObj [("messages", JArr [js_of_message {| role := user; content := "hi" |}])]) quiet =
  (Ok {| res_status := 200;
         res_body := JObj [("message", assistant_message "hello");
                           ("provider", JStr "openai")] |},
   {| sent := [openai_request "sk-example"
                 (JArr [js_of_message {| role := user; content := "hi" |}])];
      console := [] |}).
Proof.
  refine (openai_reply_verbatim "" "sk-example"
            (stub (success (openai_reply (assistant_message "hello"))))
            (JObj [("messages", JArr [js_of_message {| role := user; content := "hi" |}])])
            [js_of_message {| role := user; content := "hi" |}]
            (success (openai_reply (assistant_message "hello")))
            (openai_reply (assistant_message "hello"))
            (JArr [JObj [("index", JNum "0");
                         ("message", assistant_message "hello");
                         ("finish_reason", JStr "stop")]])
            (JObj [("index", JNum "0");
                   ("message", assistant_message "hello");
                   ("finish_reason", JStr "stop")])
            (assistant_message "hello") quiet
            eq_refl _ eq_refl eq_refl eq_refl eq_refl eq_refl eq_refl eq_refl).
  discriminate.
Defined.

(** X6. A successful upstream response without a first choice (no
    body, no [choices], an empty [choices]) is no reply for the OpenAI
    adapter: reading the first choice's message throws a TypeError, and
    the chat route answers 500 and logs it. *)
Theorem openai_reply_without_choice (G O : string)
        (f : http_request -> result upstream_response)
        (req_body : jsval) (l : list jsval) (r : upstream_response)
        (data : jsval) (w : world) :
  G = "" ->
  O <> "" ->
  get (js_or req_body (JObj [])) "messages" = Ok (JArr l) ->
  f (openai_request O (JArr l)) = Ok r ->
  ok r = true ->
  json r = Ok data ->
  no_first_choice data ->
  fst (callOpenAI O f (JArr l) w) = Throw TypeError
  /\ api_chat G O f req_body w =
     (Ok chat_failure,
      {| sent := sent w ++ [openai_request O (JArr l)];
         console := console w ++ [TypeError] |}).
Proof.
  intros HG HO Hm Hf Hok Hj Hno.
  rewrite (api_chat_openai G O f req_body l w HG HO Hm).
  assert (Hread : (choices <- get data "choices" ;;
                   first <- get_index0 choices ;;
                   get first "message")%result = Throw TypeError).
  { destruct Hno as [Hd | c Hc Hn | c first Hc Hi Hn].
    - destruct data; try discriminate; reflexivity.
    - rewrite Hc. simpl. destruct c; try discriminate; reflexivity.
    - rewrite Hc. simpl. rewrite Hi. simpl. destruct first; try discriminate; reflexivity. }
  unfold try_catch, callOpenAI, chat_catch, bind, fetch, lift, ret, console_error.
  rewrite Hf. simpl. rewrite Hok. simpl. rewrite Hj. simpl. rewrite Hread.
  split; reflexivity.
Qed.

Lemma openai_reply_without_choice_witness :
  fst (callOpenAI "sk-example" (stub (success (JObj [("choices", JArr [])])))
         (JArr [js_of_message {| role := user; content := "hi" |}]) quiet)
  = Throw TypeError.
Proof.
  refine (proj1 (openai_reply_without_choice "" "sk-example"
                   (stub (success (JObj [("choices", JArr [])])))
                   (JObj [("messages", JArr [js_of_message {| role := user; content := "hi" |}])])
                   [js_of_message {| role := user; content := "hi" |}]
                   (success (JObj [("choices", JArr [])]))
                   (JObj [("choices", JArr [])]) quiet
                   eq_refl _ eq_refl eq_refl eq_refl eq_refl _)).
  - discriminate.
  - eapply no_choice; reflexivity.
Defined.

(** X7. When the request of the selected adapter gets no usable
    response (the call itself is rejected, or the body of a successful
    response cannot be read as JSON), the chat route answers 500, having
    sent that one request, and logs the very error of the rejection. *)
Theorem transport_failure_is_500 (G O : string)
        (f : http_request -> result upstream_response)
        (req_body : jsval) (l : list jsval) (req : http_request) (e : exn) (w : world) :
  get (js_or req_body (JObj [])) "messages" = Ok (JArr l) ->
  selected_request G O (JArr l) = Some req ->
  f req = Throw e
  \/ (exists r, f req = Ok r /\ ok r = true /\ json r = Throw e) ->
  api_chat G O f req_body w =
  (Ok chat_failure,
   {| sent := sent w ++ [req]; console := console w ++ [e] |}).
Proof.
  intros Hm Hsel Hfail.
  rewrite (api_chat_selects G O f req_body l Hm).
  unfold selected_request in Hsel.
  destruct (chat_provider G O).
  - destruct (Array_map gemini_content (JArr l)) as [contents|e'] eqn:Hc; [|discriminate].
    injection Hsel as <-.
    unfold try_catch, callGemini, chat_catch, bind, fetch, lift, ret, console_error.
    rewrite Hc. simpl.
    destruct Hfail as [Hf | (r & Hf & Hok & Hj)]; rewrite Hf; simpl; [reflexivity |].
    rewrite Hok. simpl. rewrite Hj. reflexivity.
  - injection Hsel as <-.
    unfold try_catch, callOpenAI, chat_catch, bind, fetch, lift, ret, console_error.
    destruct Hfail as [Hf | (r & Hf & Hok & Hj)]; rewrite Hf; simpl; [reflexivity |].
    rewrite Hok. simpl. rewrite Hj. reflexivity.
  - discriminate.
Qed.

Lemma transport_failure_is_500_witness :
  api_chat "" "sk-example" (fun _ => Throw (Rejected "fetch failed"))
    (JObj [("messages", JArr [js_of_message {| role := user; content := "hi" |}])]) quiet =
  (Ok chat_failure,
   {| sent := [openai_request "sk-example"
                 (JArr [js_of_message {| role := user; content := "hi" |}])];
      console := [Rejected "fetch failed"] |}).
Proof.
  refine (transport_failure_is_500 "" "sk-example" (fun _ => Throw (Rejected "fetch failed"))
            (JObj [("messages", JArr [js_of_message {| role := user; content := "hi" |}])])
            [js_of_message {| role := user; content := "hi" |}]
            (openai_request "sk-example"
               (JArr [js_of_message {| role := user; content := "hi" |}]))
            (Rejected "fetch failed") quiet eq_refl eq_refl (or_introl eq_refl)).
Defined.

(** ** The Google adapter on any JSON *)

Lemma get_throws_TypeError (v : jsval) (k : string) (e : exn) :
  get v k = Throw e -> e = TypeError.
Proof. destruct v; simpl; intros H; try discriminate; now injection H as <-. Qed.

Lemma ToString_throws_TypeError (v : jsval) (e : exn) :
  ToString v = Throw e -> e = TypeError.
Proof.
  intros H. destruct (ToString_convertible v) as [Hyes Hno].
  destruct (convertible v).
  - destruct (Hyes eq_refl) as [s Hs]. congruence.
  - rewrite (Hno eq_refl) in H. now injection H as <-.
Qed.

Lemma gemini_content_throws_TypeError (m : jsval) (e : exn) :
  gemini_content m = Throw e -> e = TypeError.
Proof.
  unfold gemini_content.
  destruct (get m "role") as [r|e1] eqn:Hr; simpl;
    [| intros H; injection H as <-; now apply (get_throws_TypeError m "role")].
  destruct (get m "content") as [c|e2] eqn:Hc; simpl;
    [| intros H; injection H as <-; now apply (get_throws_TypeError m "content")].
  destruct (ToString (js_or c (JStr ""))) as [text|e3] eqn:Ht; simpl; [discriminate |].
  intros H. injection H as <-. now apply (ToString_throws_TypeError _ _ Ht).
Qed.

Lemma gemini_content_untranslatable (m : jsval) :
  untranslatable m -> gemini_content m = Throw TypeError.
Proof.
  intros [Hn | (c & Hc & Hv)].
  - destruct m; try discriminate; reflexivity.
  - unfold gemini_content.
    destruct (get_not_nullish m "role" (get_Ok_not_nullish _ _ _ Hc)) as [r ->].
    rewrite Hc. simpl.
    rewrite <- convertible_or_empty in Hv.
    now rewrite (proj2 (ToString_convertible _) Hv).
Qed.

Lemma map_result_throws {A B} (f : A -> result B) (l : list A) :
  (forall x e, f x = Throw e -> e = TypeError) ->
  Exists (fun x => f x = Throw TypeError) l ->
  map_result f l = Throw TypeError.
Proof.
  intros Honly Hex. induction Hex as [x l Hx | x l _ IH]; simpl.
  - now rewrite Hx.
  - destruct (f x) as [y|e] eqn:Hfx; simpl.
    + now rewrite IH.
    + now rewrite (Honly x e Hfx).
Qed.

Lemma map_result_Forall2 {A B} (f : A -> result B) (R : A -> B -> Prop) (l : list A) :
  (forall x y, f x = Ok y -> R x y) ->
  forall ys, map_result f l = Ok ys -> Forall2 R l ys.
Proof.
  intros HR. induction l as [|x l IH]; simpl; intros ys H.
  - injection H as <-. constructor.
  - destruct (f x) as [y|e] eqn:Hfx; simpl in H; [|discriminate].
    destruct (map_result f l) as [ys'|e]; simpl in H; [|discriminate].
    injection H as <-. constructor; [now apply HR | now apply IH].
Qed.

Lemma strict_eq_string_spec (v : jsval) (s : string) :
  strict_eq_string v s = true <-> v = JStr s.
Proof.
  destruct v; simpl; try (split; discriminate).
  rewrite String.eqb_eq. split; [now intros -> | now intros [= ->]].
Qed.

Lemma gemini_content_translated (m x : jsval) :
  gemini_content m = Ok x -> translated m x.
Proof.
  unfold gemini_content, translated.
  destruct (get m "role") as [r|e1]; simpl; [|discriminate].
  destruct (get m "content") as [c|e2]; simpl; [|discriminate].
  destruct (ToString (js_or c (JStr ""))) as [text|e3] eqn:Ht; simpl; [|discriminate].
  intros [= <-].
  exists (if strict_eq_string r "assistant" then "model" else "user"), text, c.
  refine (conj eq_refl (conj _ (conj eq_refl Ht))).
  destruct (strict_eq_string r "assistant") eqn:Hr.
  - left. apply strict_eq_string_spec in Hr. now subst.
  - right. split; [|reflexivity]. intros [= ->]. discriminate Hr.
Qed.

(** The joined text of the optional chain is [undefined] or a string. *)
Lemma gemini_text_string (data v : jsval) :
  gemini_text data = Ok v -> exists s, v = JStr s /\ s <> "".
Proof.
  unfold gemini_text.
  match goal with
  | |- (joined <- ?chain ;; _)%result = _ -> _ =>
      assert (Hshape : forall j, chain = Ok j -> j = JUndefined \/ exists s, j = JStr s)
  end.
  { unfold opt_chain. intros j.
    repeat match goal with
           | |- context [if nullish ?x then _ else _] => destruct (nullish x)
           | |- context [rbind ?r _] => destruct r; simpl
           | |- Ok _ = Ok _ -> _ => intros [= <-]
           | |- Throw _ = Ok _ -> _ => discriminate
           end; eauto. }
  match goal with
  | |- (joined <- ?chain ;; _)%result = _ -> _ => destruct chain as [j|e]; simpl
  end; [|discriminate].
  intros [= <-].
  destruct (Hshape j eq_refl) as [-> | [s ->]].
  - exists "(no content)". split; [reflexivity | discriminate].
  - unfold js_or. destruct (truthy (JStr s)) eqn:Hs.
    + exists s. split; [reflexivity | now apply truthy_JStr].
    + exists "(no content)". split; [reflexivity | discriminate].
Qed.

Lemma callGemini_reply_shape (G : string) (f : http_request -> result upstream_response)
      (messages reply : jsval) (w : world) :
  fst (callGemini G f messages w) = Ok reply ->
  exists s, reply = assistant_message s /\ s <> "".
Proof.
  unfold callGemini, bind, lift, fetch, throw, ret.
  destruct (Array_map gemini_content messages) as [contents|e]; [|discriminate].
  destruct (f (gemini_request G contents)) as [r|e]; [|discriminate].
  destruct (ok r); simpl; [|discriminate].
  destruct (json r) as [data|e]; [|discriminate].
  destruct (gemini_text data) as [text|e] eqn:Ht; [|discriminate].
  simpl. intros [= <-].
  destruct (gemini_text_string data text Ht) as (s & -> & Hs).
  now exists s.
Qed.

(** X8. With a Google key, every 200 answer of the chat route carries
    provider "google" and an assistant message whose content is a
    non-empty string. *)
Theorem gemini_answer_never_empty (G O : string)
        (f : http_request -> result upstream_response)
        (req_body : jsval) (resp : http_response) (w : world) :
  G <> "" ->
  fst (api_chat G O f req_body w) = Ok resp ->
  res_status resp = 200%N ->
  exists s,
    res_body resp = JObj [("message", JObj [("role", JStr "assistant");
                                             ("content", JStr s)]);
                          ("provider", JStr "google")]
    /\ s <> "".
Proof.
  intros HG Hout Hst.
  destruct (get_body_field req_body "messages") as [x Hx].
  assert (Harr : (exists l, x = JArr l) \/ (forall l, x <> JArr l)).
  { destruct x; try (right; intros l H; discriminate H). left. now exists items. }
  destruct Harr as [[l ->] | Hno].
  - rewrite (api_chat_gemini G O f req_body l w HG Hx) in Hout.
    unfold try_catch, bind, ret, chat_catch, console_error in Hout.
    destruct (callGemini G f (JArr l) w) as [[reply|e] w'] eqn:Hcall; simpl in Hout.
    + injection Hout as <-.
      destruct (callGemini_reply_shape G f (JArr l) reply w) as (s & -> & Hs).
      { now rewrite Hcall. }
      now exists s.
    + injection Hout as <-. discriminate Hst.
  - destruct (api_chat_not_array G O f req_body w x Hx Hno) as [H4 _].
    rewrite H4 in Hout. injection Hout as <-. discriminate Hst.
Qed.

Lemma gemini_answer_never_empty_witness :
  exists s,
    JObj [("message", assistant_message "(no content)"); ("provider", JStr "google")] =
    JObj [("message", JObj [("role", JStr "assistant"); ("content", JStr s)]);
          ("provider", JStr "google")]
    /\ s <> "".
Proof.
  refine (gemini_answer_never_empty "AIzaSyExampleKey" ""
            (stub (success (gemini_reply [""])))
            (JObj [("messages", JArr [js_of_message {| role := user; content := "hi" |}])])
            {| res_status := 200;
               res_body := JObj [("message", assistant_message "(no content)");
                                 ("provider", JStr "google")] |}
            quiet _ eq_refl eq_refl).
  discriminate.
Defined.

(** X9. With a Google key, a [messages] array holding a message that is
    [null], or whose content has no primitive value, makes the chat
    route answer 500 with a TypeError logged, and nothing is sent
    upstream: the translation fails before the call. *)
Theorem untranslatable_message_is_500 (G O : string)
        (f : http_request -> result upstream_response)
        (req_body : jsval) (l : list jsval) (w : world) :
  G <> "" ->
  get (js_or req_body (JObj [])) "messages" = Ok (JArr l) ->
  Exists untranslatable l ->
  api_chat G O f req_body w =
  (Ok chat_failure, {| sent := sent w; console := console w ++ [TypeError] |}).
Proof.
  intros HG Hm Hex.
  rewrite (api_chat_gemini G O f req_body l w HG Hm).
  assert (Hc : Array_map gemini_content (JArr l) = Throw TypeError).
  { unfold Array_map.
    rewrite (map_result_throws gemini_content l gemini_content_throws_TypeError);
      [reflexivity |].
    eapply Exists_impl; [| exact Hex].
    intros m Hmm. now apply gemini_content_untranslatable. }
  unfold try_catch, bind.
  rewrite (callGemini_contents_throw G f (JArr l) TypeError w Hc).
  reflexivity.
Qed.

Lemma untranslatable_message_is_500_witness :
  api_chat "AIzaSyExampleKey" "" (stub (success (gemini_reply ["foo"])))
    (JObj [("messages", JArr [js_of_message {| role := user; content := "hi" |}; JNull])])
    quiet =
  (Ok chat_failure, {| sent := []; console := [TypeError] |}).
Proof.
  refine (untranslatable_message_is_500 "AIzaSyExampleKey" ""
            (stub (success (gemini_reply ["foo"])))
            (JObj [("messages",
                    JArr [js_of_message {| role := user; content := "hi" |}; JNull])])
            [js_of_message {| role := user; content := "hi" |}; JNull]
            quiet _ eq_refl _).
  - discriminate.
  - apply Exists_cons_tl, Exists_cons_hd. left. reflexivity.
Defined.

(** X10. Whatever JSON the [messages] array holds, when the Google
    translation succeeds its result is an array of the same length whose
    element at each position is the Google-shaped element for the
    message at that position: role "model" exactly when the message's
    role is the string "assistant", else "user" (a missing role, another
    string, a value that is no string), with one text part. *)
Theorem gemini_contents_shape (l : list jsval) (out : jsval) :
  Array_map gemini_content (JArr l) = Ok out ->
  exists items,
    out = JArr items
    /\ length items = length l
    /\ Forall2 translated l items.
Proof.
  unfold Array_map.
  destruct (map_result gemini_content l) as [items|e] eqn:Hmap; simpl; [|discriminate].
  intros [= <-]. exists items.
  assert (HF : Forall2 translated l items).
  { apply (map_result_Forall2 gemini_content translated l gemini_content_translated).
    exact Hmap. }
  repeat split; [| exact HF].
  symmetry. exact (Forall2_length HF).
Qed.

Lemma gemini_contents_shape_witness :
  exists items,
    JArr [JObj [("role", JStr "user"); ("parts", JArr [JObj [("text", JStr "7")]])]] =
    JArr items
    /\ length items = length [JObj [("role", JStr "Assistant"); ("content", JNum "7")]]
    /\ Forall2 translated [JObj [("role", JStr "Assistant"); ("content", JNum "7")]] items.
Proof.
  refine (gemini_contents_shape
            [JObj [("role", JStr "Assistant"); ("content", JNum "7")]]
            (JArr [JObj [("role", JStr "user"); ("parts", JArr [JObj [("text", JStr "7")]])]])
            eq_refl).
Defined.

(** ** The start-up and the client *)

(** X11. The local entry point calls [app.listen] exactly when the
    VERCEL variable is unset or empty: any non-empty value, "0"
    included, keeps the process from listening, and then nothing is
    logged.  When it is called, the port given is the PORT variable if
    that is set and non-empty and 3001 otherwise; the address line,
    ending with that port, is logged only when the socket is bound; when
    the call fails nothing is logged and its error is left uncaught. *)
Theorem server_index_listens (app_listen : jsval -> listen_outcome)
        (env_VERCEL env_PORT : option string) :
  (forall s, env_VERCEL = Some s -> s <> "" ->
             server_index app_listen env_VERCEL env_PORT =
             {| listen_port := None; log_lines := []; uncaught := None |})
  /\ (env_VERCEL = None \/ env_VERCEL = Some "" ->
      forall s, env_PORT = Some s -> s <> "" ->
                (app_listen (JStr s) = Bound ->
                 server_index app_listen env_VERCEL env_PORT =
                 {| listen_port := Some (JStr s);
                    log_lines := ["Local server listening at http://localhost:" ++ s];
                    uncaught := None |})
                /\ (forall e, app_listen (JStr s) = Fails e ->
                     server_index app_listen env_VERCEL env_PORT =
                     {| listen_port := Some (JStr s);
                        log_lines := [];
                        uncaught := Some e |}))
  /\ (env_VERCEL = None \/ env_VERCEL = Some "" ->
      env_PORT = None \/ env_PORT = Some "" ->
      (app_listen (JNum "3001") = Bound ->
       server_index app_listen env_VERCEL env_PORT =
       {| listen_port := Some (JNum "3001");
          log_lines := ["Local server listening at http://localhost:3001"];
          uncaught := None |})
      /\ (forall e, app_listen (JNum "3001") = Fails e ->
           server_index app_listen env_VERCEL env_PORT =
           {| listen_port := Some (JNum "3001");
              log_lines := [];
              uncaught := Some e |})).
Proof.
  split; [| split].
  - intros s -> Hs. unfold server_index. simpl.
    apply truthy_JStr in Hs. simpl in Hs. now rewrite Hs.
  - intros Hv s -> Hs.
    assert (Hp : PORT (Some s) = JStr s).
    { unfold PORT, js_or. simpl env_value.
      apply truthy_JStr in Hs. now rewrite Hs. }
    assert (Hrun : server_index app_listen env_VERCEL (Some s) =
                   match app_listen (JStr s) with
                   | Bound =>
                       {| listen_port := Some (JStr s);
                          log_lines := ["Local server listening at http://localhost:" ++ s];
                          uncaught := None |}
                   | Fails e =>
                       {| listen_port := Some (JStr s); log_lines := [];
                          uncaught := Some e |}
                   end).
    { unfold server_index. rewrite Hp. destruct Hv as [-> | ->]; reflexivity. }
    rewrite Hrun. split; [intros -> | intros e ->]; reflexivity.
  - intros Hv Hport.
    assert (Hrun : server_index app_listen env_VERCEL env_PORT =
                   match app_listen (JNum "3001") with
                   | Bound =>
                       {| listen_port := Some (JNum "3001");
                          log_lines := ["Local server listening at http://localhost:3001"];
                          uncaught := None |}
                   | Fails e =>
                       {| listen_port := Some (JNum "3001"); log_lines := [];
                          uncaught := Some e |}
                   end).
    { destruct Hv as [-> | ->], Hport as [-> | ->]; reflexivity. }
    rewrite Hrun. split; [intros -> | intros e ->]; reflexivity.
Qed.

Lemma server_index_listens_witness :
  server_index (fun _ => Fails (Error "options.port should be >= 0 and < 65536"))
    None (Some "99999") =
  {| listen_port := Some (JStr "99999");
     log_lines := [];
     uncaught := Some (Error "options.port should be >= 0 and < 65536") |}.
Proof.
  refine (proj2 (proj1 (proj2
    (server_index_listens
       (fun _ => Fails (Error "options.port should be >= 0 and < 65536"))
       None (Some "99999")))
    (or_introl eq_refl) "99999" eq_refl _)
    (Error "options.port should be >= 0 and < 65536") eq_refl).
  discriminate.
Defined.

(** X12. [callChatAPI] never throws and sends exactly one request, the
    POST of the messages to /api/chat: it returns either the [message]
    of a successful response, as the server gave it, or an assistant
    message whose content is "Error: " followed by the message of the
    error caught, which is the rejection of the call, the error
    "HTTP <status>" of a non-success response, the rejection of the
    reading of the body, or the TypeError of reading [message] off a
    [null] body. *)
Theorem callChatAPI_never_throws (type_error_text : string)
        (api : http_request -> result upstream_response) (messages : jsval) (w : world) :
  exists reply,
    callChatAPI type_error_text api messages w =
    (Ok reply, {| sent := sent w ++ [chat_api_request messages]; console := console w |})
    /\ ((exists r data,
            api (chat_api_request messages) = Ok r /\ ok r = true
            /\ json r = Ok data /\ get data "message" = Ok reply)
        \/ (exists e,
               reply = JObj [("role", JStr "assistant");
                             ("content", JStr ("Error: " ++ err_message type_error_text e))]
               /\ (api (chat_api_request messages) = Throw e
                   \/ (exists r,
                          api (chat_api_request messages) = Ok r /\ ok r = false
                          /\ e = Error ("HTTP " ++ N_to_string (status r)))
                   \/ (exists r,
                          api (chat_api_request messages) = Ok r /\ ok r = true
                          /\ json r = Throw e)
                   \/ (exists r data,
                          api (chat_api_request messages) = Ok r /\ ok r = true
                          /\ json r = Ok data /\ nullish data = true
                          /\ e = TypeError)))).
Proof.
  unfold callChatAPI, try_catch, bind, fetch, lift, throw, ret.
  destruct (api (chat_api_request messages)) as [r|e] eqn:Hf; simpl.
  - destruct (ok r) eqn:Hok; simpl.
    + destruct (json r) as [data|e] eqn:Hj; simpl.
      * destruct (get data "message") as [m|e] eqn:Hm.
        -- exists m. split; [reflexivity |]. left. now exists r, data.
        -- eexists. split; [reflexivity |]. right. exists e. split; [reflexivity |].
           right. right. right. exists r, data.
           destruct data; simpl in Hm; try discriminate;
             injection Hm as <-; repeat split; assumption || reflexivity.
      * eexists. split; [reflexivity |]. right. exists e. split; [reflexivity |].
        right. right. left. now exists r.
    + eexists. split; [reflexivity |].
      right. exists (Error ("HTTP " ++ N_to_string (status r))). split; [reflexivity |].
      right. left. now exists r.
  - eexists. split; [reflexivity |]. right. exists e. split; [reflexivity |]. now left.
Qed.

(** X13. What [callChatAPI] makes of a response.  A non-success status
    becomes the assistant message "Error: HTTP <status>"; the body of a
    successful response that is not [null] gives its [message], as it
    is, [undefined] when the body has none; a body that cannot be read
    as JSON becomes "Error: " followed by the reason. *)
Theorem callChatAPI_outcomes (type_error_text : string)
        (api : http_request -> result upstream_response) (messages : jsval)
        (r : upstream_response) (w : world) :
  api (chat_api_request messages) = Ok r ->
  (ok r = false ->
   fst (callChatAPI type_error_text api messages w) =
   Ok (assistant_message ("Error: HTTP " ++ N_to_string (status r))))
  /\ (ok r = true ->
      forall props, json r = Ok (JObj props) ->
        fst (callChatAPI type_error_text api messages w) =
        Ok (match own_property "message" props with
            | Some m => m
            | None => JUndefined
            end))
  /\ (ok r = true ->
      forall reason, json r = Throw (Rejected reason) ->
        fst (callChatAPI type_error_text api messages w) =
        Ok (assistant_message ("Error: " ++ reason))).
Proof.
  intros Hf.
  unfold callChatAPI, try_catch, bind, fetch, lift, throw, ret. rewrite Hf. simpl.
  split; [| split].
  - intros Hok. rewrite Hok. reflexivity.
  - intros Hok props Hj. rewrite Hok. simpl. rewrite Hj. reflexivity.
  - intros Hok reason Hj. rewrite Hok. simpl. rewrite Hj. reflexivity.
Qed.

Lemma callChatAPI_outcomes_witness :
  fst (callChatAPI "Cannot read properties of null (reading 'message')"
         (stub (failure 500))
         (JArr [js_of_message {| role := user; content := "hi" |}]) quiet)
  = Ok (assistant_message "Error: HTTP 500").
Proof.
  refine (proj1 (callChatAPI_outcomes "Cannot read properties of null (reading 'message')"
                   (stub (failure 500))
                   (JArr [js_of_message {| role := user; content := "hi" |}])
                   (failure 500) quiet eq_refl) eq_refl).
Defined.

(** ** The Google route from end to end *)

(** X14. With a Google key, a conversation of ChatMessages and a
    successful upstream response whose first candidate has text parts
    with a non-empty concatenation, the chat route sends the translated
    conversation in one request and answers 200 with provider "google"
    and the assistant message holding that concatenation; nothing is
    logged. *)
Theorem gemini_route_success (G O : string) (f : http_request -> result upstream_response)
        (req_body : jsval) (msgs : list ChatMessage) (r : upstream_response)
        (data : jsval) (parts : list jsval) (texts : list string) (w : world) :
  G <> "" ->
  get (js_or req_body (JObj [])) "messages" = Ok (JArr (map js_of_message msgs)) ->
  f (gemini_request G (JArr (map spec_gemini_message msgs))) = Ok r ->
  ok r = true ->
  json r = Ok data ->
  first_candidate_parts data parts ->
  Forall2 text_part parts texts ->
  String.concat "" texts <> "" ->
  api_chat G O f req_body w =
  (Ok {| res_status := 200;
         res_body := JObj [("message", assistant_message (String.concat "" texts));
                           ("provider", JStr "google")] |},
   {| sent := sent w ++ [gemini_request G (JArr (map spec_gemini_message msgs))];
      console := console w |}).
Proof.
  intros HG Hm Hf Hok Hj Hp Ht Hne.
  rewrite (api_chat_gemini G O f req_body _ w HG Hm).
  assert (Hc : Array_map gemini_content (JArr (map js_of_message msgs)) =
               Ok (JArr (map spec_gemini_message msgs))).
  { unfold Array_map.
    now rewrite (map_result_map gemini_content js_of_message spec_gemini_message msgs
                   gemini_content_message). }
  assert (Htext : gemini_text data = Ok (JStr (String.concat "" texts))).
  { rewrite (gemini_text_of_parts data parts texts Hp Ht). unfold js_or.
    apply truthy_JStr in Hne. now rewrite Hne. }
  unfold try_catch, callGemini, bind, fetch, lift, ret.
  rewrite Hc. simpl. rewrite Hf. simpl. rewrite Hok. simpl. rewrite Hj. simpl.
  rewrite Htext. reflexivity.
Qed.

Lemma gemini_route_success_witness :
  api_chat "AIzaSyExampleKey" "sk-example" (stub (success (gemini_reply ["foo"; "bar"])))
    (JObj [("messages", JArr (map js_of_message [{| role := user; content := "hi" |}]))])
    quiet =
  (Ok {| res_status := 200;
         res_body := JObj [("message", assistant_message (String.concat "" ["foo"; "bar"]));
                           ("provider", JStr "google")] |},
   {| sent := [] ++ [gemini_request "AIzaSyExampleKey"
                      (JArr (map spec_gemini_message [{| role := user; content := "hi" |}]))];
      console := [] |}).
Proof.
  refine (gemini_route_success "AIzaSyExampleKey" "sk-example"
            (stub (success (gemini_reply ["foo"; "bar"])))
            (JObj [("messages",
                    JArr (map js_of_message [{| role := user; content := "hi" |}]))])
            [{| role := user; content := "hi" |}]
            (success (gemini_reply ["foo"; "bar"]))
            (gemini_reply ["foo"; "bar"])
            [JObj [("text", JStr "foo")]; JObj [("text", JStr "bar")]]
            ["foo"; "bar"] quiet _ eq_refl eq_refl eq_refl eq_refl _ _ _).
  - discriminate.
  - eapply first_candidate_parts_intro; reflexivity.
  - repeat constructor.
  - discriminate.
Defined.

(** X15. The Google adapter does not take every successful response:
    when the parts of the first candidate are neither missing nor an
    array, or are an array holding a [null], reading the texts throws a
    TypeError, and the chat route answers 500, having sent its one
    request, and logs the TypeError. *)
Theorem gemini_malformed_parts_is_500 (G O : string)
        (f : http_request -> result upstream_response)
        (req_body : jsval) (l : list jsval) (contents : jsval) (r : upstream_response)
        (data candidates first content parts : jsval) (w : world) :
  G <> "" ->
  get (js_or req_body (JObj [])) "messages" = Ok (JArr l) ->
  Array_map gemini_content (JArr l) = Ok contents ->
  f (gemini_request G contents) = Ok r ->
  ok r = true ->
  json r = Ok data ->
  get data "candidates" = Ok candidates ->
  get_index0 candidates = Ok first ->
  get first "content" = Ok content ->
  get content "parts" = Ok parts ->
  (nullish parts = false /\ Array_isArray parts = false)
  \/ (exists items, parts = JArr items /\ Exists (fun p => nullish p = true) items) ->
  api_chat G O f req_body w =
  (Ok chat_failure,
   {| sent := sent w ++ [gemini_request G contents];
      console := console w ++ [TypeError] |}).
Proof.
  intros HG Hm Hc Hf Hok Hj Hcs Hi Hct Hp Hbad.
  rewrite (api_chat_gemini G O f req_body l w HG Hm).
  assert (Htext : gemini_text data = Throw TypeError).
  { unfold gemini_text, opt_chain.
    rewrite (get_Ok_not_nullish _ _ _ Hcs), Hcs. simpl.
    rewrite (get_index0_Ok_not_nullish _ _ Hi), Hi. simpl.
    rewrite (get_Ok_not_nullish _ _ _ Hct), Hct. simpl.
    rewrite (get_Ok_not_nullish _ _ _ Hp), Hp. simpl.
    destruct Hbad as [[Hn Ha] | (items & -> & Hex)].
    - rewrite Hn. destruct parts; try discriminate; reflexivity.
    - simpl.
      rewrite (map_result_throws (fun p => get p "text") items).
      + reflexivity.
      + intros x e. apply get_throws_TypeError.
      + eapply Exists_impl; [| exact Hex].
        intros p Hn. destruct p; try discriminate; reflexivity. }
  unfold try_catch, callGemini, chat_catch, bind, fetch, lift, ret, console_error.
  rewrite Hc. simpl. rewrite Hf. simpl. rewrite Hok. simpl. rewrite Hj. simpl.
  rewrite Htext. reflexivity.
Qed.

Lemma gemini_malformed_parts_is_500_witness :
  api_chat "AIzaSyExampleKey" ""
    (stub (success (JObj [("candidates",
                           JArr [JObj [("content", JObj [("parts", JStr "foo")])]])])))
    (JObj [("messages", JArr [js_of_message {| role := user; content := "hi" |}])]) quiet =
  (Ok chat_failure,
   {| sent := [] ++ [gemini_request "AIzaSyExampleKey"
                      (JArr [spec_gemini_message {| role := user; content := "hi" |}])];
      console := [] ++ [TypeError] |}).
Proof.
  refine (gemini_malformed_parts_is_500 "AIzaSyExampleKey" ""
            (stub (success (JObj [("candidates",
                                   JArr [JObj [("content", JObj [("parts", JStr "foo")])]])])))
            (JObj [("messages", JArr [js_of_message {| role := user; content := "hi" |}])])
            [js_of_message {| role := user; content := "hi" |}]
            (JArr [spec_gemini_message {| role := user; content := "hi" |}])
            (success (JObj [("candidates",
                             JArr [JObj [("content", JObj [("parts", JStr "foo")])]])]))
            (JObj [("candidates", JArr [JObj [("content", JObj [("parts", JStr "foo")])]])])
            (JArr [JObj [("content", JObj [("parts", JStr "foo")])]])
            (JObj [("content", JObj [("parts", JStr "foo")])])
            (JObj [("parts", JStr "foo")])
            (JStr "foo") quiet
            _ eq_refl eq_refl eq_refl eq_refl eq_refl eq_refl eq_refl eq_refl eq_refl
            (or_introl (conj eq_refl eq_refl))).
  discriminate.
Defined.
